(** * usage-forwarder: the daily meter-reading relay of [src/main.py]

    A shallow embedding of [main.py] and the properties of its control
    flow.  The script talks to two HTTP services and a clock; both are an
    explicit [World] here, and every function of the script becomes a
    computation in a small state-and-exception monad whose state records
    the requests issued and the lines printed, in order. *)

From Stdlib Require Import ZArith String List Lia.
From Stdlib Require Import Floats.SpecFloat.
From stdpp Require Import base decidable countable strings list gmap.

Local Open Scope string_scope.
Local Open Scope list_scope.
Local Open Scope Z_scope.

Set Warnings "-register-all,-clear-no-such-hyp".

(** ** Values produced by the JSON decoder

    [json.loads] and [Response.json()] yield [None], [bool], [int],
    [float], [str], [list] and [dict] objects.  A float is kept in the
    sign/mantissa/exponent form of [spec_float]; a dict keeps its items in
    insertion order, and a decoded dict has pairwise distinct keys.  A str
    is kept as the bytes of its UTF-8 form; the decoder also yields lone
    surrogates (from an escape such as [\ud800]), kept in the same
    three-byte form [ED A0..BF 80..BF], which UTF-8 proper excludes. *)

Inductive json : Type :=
| JNull
| JBool (b : bool)
| JInt (n : Z)
| JFloat (f : spec_float)
| JStr (s : string)
| JList (l : list json)
| JDict (d : list (string * json)).

(** [d.get(k)] / [k in d] / [d[k]] on a decoded dict. *)
Fixpoint dict_lookup (k : string) (d : list (string * json)) : option json :=
  match d with
  | [] => None
  | (k', v) :: d' => if String.eqb k k' then Some v else dict_lookup k d'
  end.

(** [bool(v)]. *)
Definition truthy (v : json) : bool :=
  match v with
  | JNull => false
  | JBool b => b
  | JInt n => negb (Z.eqb n 0)
  | JFloat (S754_zero _) => false
  | JFloat _ => true
  | JStr s => negb (String.eqb s "")
  | JList l => match l with [] => false | _ => true end
  | JDict d => match d with [] => false | _ => true end
  end.

(** ** Hashing and equality of set members

    [seen] in [fetch_power_usage] is a Python [set]: membership is decided
    by [hash] and [==].  Numbers compare by mathematical value across
    [bool], [int] and [float] ([True == 1 == 1.0]); the decoder returns one
    shared object for every [NaN] token, which a set finds by identity;
    [list] and [dict] objects are unhashable.  [pykey] is the class of a
    hashable value under that equality: a number is [m * 2^e] with [m] odd,
    or zero. *)

Inductive pykey : Type :=
| KNone
| KNum (m e : Z)
| KInf (neg : bool)
| KNan
| KStr (s : string).

Fixpoint strip_twos (p : positive) : positive * Z :=
  match p with
  | xO q => let '(m, k) := strip_twos q in (m, k + 1)
  | _ => (p, 0)
  end.

Definition num_key (m e : Z) : pykey :=
  match m with
  | Z0 => KNum 0 0
  | Zpos p => let '(q, k) := strip_twos p in KNum (Zpos q) (e + k)
  | Zneg p => let '(q, k) := strip_twos p in KNum (Zneg q) (e + k)
  end.

(** [None] when [hash(v)] raises [TypeError]. *)
Definition hash_key (v : json) : option pykey :=
  match v with
  | JNull => Some KNone
  | JBool b => Some (num_key (if b then 1 else 0) 0)
  | JInt n => Some (num_key n 0)
  | JFloat (S754_zero _) => Some (num_key 0 0)
  | JFloat (S754_infinity s) => Some (KInf s)
  | JFloat S754_nan => Some KNan
  | JFloat (S754_finite s m e) =>
      Some (num_key (if s then Zneg m else Zpos m) e)
  | JStr s => Some (KStr s)
  | JList _ => None
  | JDict _ => None
  end.

#[global] Instance pykey_eq_dec : EqDecision pykey.
Proof. solve_decision. Defined.

Definition pykey_to_sum (k : pykey) : unit + (Z * Z) + bool + unit + string :=
  match k with
  | KNone => inl (inl (inl (inl tt)))
  | KNum m e => inl (inl (inl (inr (m, e))))
  | KInf s => inl (inl (inr s))
  | KNan => inl (inr tt)
  | KStr s => inr s
  end.

Definition pykey_of_sum (x : unit + (Z * Z) + bool + unit + string) : pykey :=
  match x with
  | inl (inl (inl (inl _))) => KNone
  | inl (inl (inl (inr (m, e)))) => KNum m e
  | inl (inl (inr s)) => KInf s
  | inl (inr _) => KNan
  | inr s => KStr s
  end.

#[global] Instance pykey_countable : Countable pykey.
Proof.
  refine (inj_countable' pykey_to_sum pykey_of_sum _).
  intros []; reflexivity.
Defined.

(** ** The outside world

    Every request of the script is one of six calls; the constructor keeps
    what the script puts into the call (the URL, headers and body are
    functions of these and of the process configuration). *)

(** The output of [strftime] for the UTC day with the given proleptic
    Gregorian ordinal ([date.toordinal()]). *)
Inductive date_str : Type := Ymd (ordinal : Z).

Inductive request : Type :=
| GetSubjects
    (* requests.get(subjects_url, json={}, ApiKey header), line 130 *)
| PostMeasurements (subjectIds : list json) (toDate : Z)
    (* requests.post(measurements_url, json=payload), line 147; [toDate] is
       23:59:59Z of the day with that ordinal, "take" is 1 *)
| PostToken
    (* requests.post(TOKEN_URL, json=payload), line 43 *)
| GetMyMeters (token : json)
    (* requests.get(meters_url, Bearer token), line 70 *)
| GetDataRaw (token : json) (meterID : json) (date : date_str)
    (* requests.get(url, Bearer token), line 103 *)
| PostToBlockbax (data : list json).
    (* requests.post(BLOCKBAX_URL, json=data), line 117 *)

(** A response: its status code and its body as the JSON decoder reads it,
    [None] for a body that is not JSON. *)
Record response : Type := Response { status_code : Z; body : option json }.

(** What a [requests] call does: it raises (no connection, bad URL, ...) or
    it returns a response. *)
Inductive outcome : Type :=
| CallRaises
| CallReturns (r : response).

(** The services answer a request knowing all earlier requests of the run;
    the clock gives the UTC day (as an ordinal) of its k-th reading. *)
Record World : Type := {
  server : list request → request → outcome;
  clock : nat → Z
}.

Inductive exn : Type :=
| RequestException
| HTTPError (status : Z)
| JSONDecodeError
| NoTokenFound                          (* ValueError, line 49 *)
| UnexpectedMetersFormat (meters_data : json)  (* ValueError, line 86 *)
| TypeError
| AttributeError
| KeyError
| OverflowError
| UnicodeEncodeError.

Inductive message : Type :=
| FailedToAuthenticate (status : Z)
| FailedToParseMeters (status : Z)
| FailedToFetch (meter_id : json) (status : Z)
| AlreadySubmitted
| NoExistingMeasurements
| Authenticating
| Backfilling (days : Z)
| FetchingFor (date : date_str)
| SendingFor (date : date_str)
| BackfillComplete
| FetchingYesterday
| SendingData
| Done
| ErrorOccurred (e : exn).

Inductive event : Type :=
| Call (r : request)
| Print (m : message).

Record state : Type := State { events : list event; clock_reads : nat }.

Definition requests_of (t : list event) : list request :=
  omap (λ ev, match ev with Call r => Some r | Print _ => None end) t.

Definition initial : state := State [] 0.

(** ** Results and computations *)

Inductive result (A : Type) : Type :=
| Ok (a : A)
| Raise (e : exn).
Arguments Ok {A} a.
Arguments Raise {A} e.

#[global] Instance result_ret : MRet result := λ A a, Ok a.
#[global] Instance result_bind : MBind result :=
  λ A B f r, match r with Ok a => f a | Raise e => Raise e end.

Definition M (A : Type) : Type := state → result A * state.

#[global] Instance M_ret : MRet M := λ A a s, (Ok a, s).
#[global] Instance M_bind : MBind M :=
  λ A B f m s, match m s with
               | (Ok a, s') => f a s'
               | (Raise e, s') => (Raise e, s')
               end.

Definition raise {A} (e : exn) : M A := λ s, (Raise e, s).
Definition lift {A} (r : result A) : M A := λ s, (r, s).

(** [try: m  except Exception as e: h e]. *)
Definition try_except {A} (m : M A) (h : exn → M A) : M A :=
  λ s, match m s with
       | (Ok a, s') => (Ok a, s')
       | (Raise e, s') => h e s'
       end.

(** ** Printing

    [sys.stdout] encodes its text as UTF-8 with strict error handling: a
    text that holds a lone surrogate makes [print] raise
    [UnicodeEncodeError], and nothing of the line is written. *)

(** The first two bytes of a surrogate: [ED] and one of [A0..BF]. *)
Definition surrogate_head (c d : Ascii.ascii) : bool :=
  Nat.eqb (Ascii.nat_of_ascii c) 237
  && Nat.leb 160 (Ascii.nat_of_ascii d)
  && Nat.leb (Ascii.nat_of_ascii d) 191.

(** A str without surrogates. *)
Fixpoint encodable (s : string) : bool :=
  match s with
  | EmptyString => true
  | String c rest =>
      match rest with
      | String d _ => negb (surrogate_head c d) && encodable rest
      | EmptyString => true
      end
  end.

(** Whether [str(v)], as an f-string inserts it, can be encoded: a str is
    inserted as it is; the text of any other value is ASCII but for the
    strs inside a list or dict, which [repr] writes with every surrogate
    escaped. *)
Definition str_encodable (v : json) : bool :=
  match v with
  | JStr s => encodable s
  | _ => true
  end.

(** The lines of the script are ASCII but for what they insert: a meter
    identifier (line 109) and the text of the caught error (line 181), which
    for the [ValueError] of line 86 holds [str(meters_data)].  The texts of
    the other errors hold no surrogate. *)
Definition printable (m : message) : bool :=
  match m with
  | FailedToFetch meter_id _ => str_encodable meter_id
  | ErrorOccurred (UnexpectedMetersFormat meters_data) => str_encodable meters_data
  | _ => true
  end.

Definition print (m : message) : M () :=
  λ s, if printable m
       then (Ok (), State (events s ++ [Print m]) (clock_reads s))
       else (Raise UnicodeEncodeError, s).

(** ** Python operations on decoded values *)

(** [v.get(k, default)]: only a dict has [get]. *)
Definition py_get (v : json) (k : string) (default : json) : result json :=
  match v with
  | JDict d => Ok (match dict_lookup k d with Some x => x | None => default end)
  | _ => Raise AttributeError
  end.

(** [for x in v]: the items of a list, the keys of a dict, the characters
    of a string (here one item per byte, which the test ["id" in s] of
    line 135 cannot tell apart: no item of either kind holds "id");
    nothing else decoded from JSON is iterable. *)
Definition py_iter (v : json) : result (list json) :=
  match v with
  | JList l => Ok l
  | JDict d => Ok (map (λ kv, JStr (fst kv)) d)
  | JStr s => Ok (map (λ c, JStr (String c EmptyString)) (list_ascii_of_string s))
  | _ => Raise TypeError
  end.

Definition is_substring (k t : string) : bool :=
  match String.index 0 k t with Some _ => true | None => false end.

(** [k in v] for a string [k]: key of a dict, item of a list, substring of
    a string; [TypeError] on anything else. *)
Definition py_contains (k : string) (v : json) : result bool :=
  match v with
  | JDict d => Ok (match dict_lookup k d with Some _ => true | None => false end)
  | JList l =>
      Ok (existsb (λ x, match x with JStr t => String.eqb t k | _ => false end) l)
  | JStr t => Ok (is_substring k t)
  | _ => Raise TypeError
  end.

(** [v[k]] for a string [k]. *)
Definition py_getitem (k : string) (v : json) : result json :=
  match v with
  | JDict d => match dict_lookup k d with Some x => Ok x | None => Raise KeyError end
  | _ => Raise TypeError
  end.

(** [[s["id"] for s in subjects if "id" in s]], line 135. *)
Fixpoint collect_subject_ids (subjects : list json) : result (list json) :=
  match subjects with
  | [] => Ok []
  | s :: rest =>
      has ← py_contains "id" s;
      if has : bool then
        v ← py_getitem "id" s;
        ids ← collect_subject_ids rest;
        mret (v :: ids)
      else collect_subject_ids rest
  end.

(** [[m["id"] for m in meters if isinstance(m, dict) and "id" in m]],
    line 76. *)
Fixpoint meter_ids_of (meters : list json) : list json :=
  match meters with
  | [] => []
  | JDict d :: rest =>
      match dict_lookup "id" d with
      | Some v => v :: meter_ids_of rest
      | None => meter_ids_of rest
      end
  | _ :: rest => meter_ids_of rest
  end.

(** The deduplication loop, lines 78-83, from the current [seen] and
    [unique_meter_ids]. *)
Fixpoint dedup_loop (meter_ids : list json) (seen : gset pykey)
    (unique_meter_ids : list json) : result (list json) :=
  match meter_ids with
  | [] => Ok unique_meter_ids
  | mid :: rest =>
      match hash_key mid with
      | None => Raise TypeError
      | Some k =>
          if decide (k ∈ seen) then dedup_loop rest seen unique_meter_ids
          else dedup_loop rest ({[ k ]} ∪ seen) (unique_meter_ids ++ [mid])
      end
  end.

(** Lines 75-86: the shape test, the comprehension and the loop. *)
Definition parse_meters (meters_data : json) : result (list json) :=
  match meters_data with
  | JDict d =>
      match dict_lookup "meters" d with
      | Some (JList meters) => dedup_loop (meter_ids_of meters) ∅ []
      | _ => Raise (UnexpectedMetersFormat meters_data)
      end
  | _ => Raise (UnexpectedMetersFormat meters_data)
  end.

(** [datetime - timedelta(days=d)] on the day ordinal: [timedelta] takes at
    most 999999999 days and a [datetime] lies between 0001-01-01 (ordinal
    1) and 9999-12-31 (ordinal 3652059). *)
Definition minus_days (now d : Z) : result Z :=
  if (999999999 <? Z.abs d) then Raise OverflowError
  else if (1 <=? now - d) && (now - d <=? 3652059) then Ok (now - d)
  else Raise OverflowError.

(** [response.raise_for_status()]: 4xx and 5xx raise. *)
Definition raise_for_status (r : response) : result () :=
  if (400 <=? status_code r) && (status_code r <? 600)
  then Raise (HTTPError (status_code r)) else Ok ().

(** [response.json()] and [json.loads(response.text)]. *)
Definition response_json (r : response) : result json :=
  match body r with Some v => Ok v | None => Raise JSONDecodeError end.

(** [range(start, 0, -1)]. *)
Definition range_down (start : Z) : list Z :=
  map (λ i, start - Z.of_nat i) (seq 0 (Z.to_nat start)).

Fixpoint for_each {A} (l : list A) (body : A → M ()) : M () :=
  match l with
  | [] => mret ()
  | x :: rest => body x;; for_each rest body
  end.

(** ** The script *)

Section Script.
Context (w : World).

(** A [requests.get]/[requests.post] call. *)
Definition http (r : request) : M response :=
  λ s, let s' := State (events s ++ [Call r]) (clock_reads s) in
       match server w (requests_of (events s)) r with
       | CallRaises => (Raise RequestException, s')
       | CallReturns resp => (Ok resp, s')
       end.

(** [datetime.now(timezone.utc)], as the ordinal of its day. *)
Definition utcnow : M Z :=
  λ s, (Ok (clock w (clock_reads s)), State (events s) (S (clock_reads s))).

(** Lines 33-53. *)
Definition get_access_token : M json :=
  response ← http PostToken;
  try_except
    (lift (raise_for_status response);;
     token_data ← lift (response_json response);
     token ← lift (py_get token_data "token" JNull);
     if truthy token then mret token else raise NoTokenFound)
    (λ e, print (FailedToAuthenticate (status_code response));; raise e).

(** The Meter Enumerator: step 1 of [fetch_power_usage], lines 62-89. *)
Definition meter_enumerator (token : json) : M (list json) :=
  meters_response ← http (GetMyMeters token);
  lift (raise_for_status meters_response);;
  try_except
    (meters_data ← lift (response_json meters_response);
     lift (parse_meters meters_data))
    (λ e, print (FailedToParseMeters (status_code meters_response));; raise e).

(** The Reading Fetcher: step 2 of [fetch_power_usage], lines 92-112,
    from the current [all_data]. *)
Fixpoint reading_fetcher (token : json) (date : date_str)
    (meter_ids : list json) (all_data : list json) : M (list json) :=
  match meter_ids with
  | [] => mret all_data
  | meter_id :: rest =>
      response ← http (GetDataRaw token meter_id date);
      all_data' ← try_except
        (lift (raise_for_status response);;
         raw_data ← lift (response_json response);
         mret (all_data ++ [raw_data]))
        (λ e, print (FailedToFetch meter_id (status_code response));; raise e);
      reading_fetcher token date rest all_data'
  end.

(** Lines 56-112. *)
Definition fetch_power_usage (token : json) (date_str : option date_str)
    : M (list json) :=
  date ← match date_str with
         | Some d => mret d
         | None => now ← utcnow; y ← lift (minus_days now 1); mret (Ymd y)
         end;
  meter_ids ← meter_enumerator token;
  reading_fetcher token date meter_ids [].

(** Lines 115-122. *)
Definition forward_to_blockbax (data : list json) : M () :=
  response ← http (PostToBlockbax data);
  lift (raise_for_status response).

(** Lines 126-151. *)
Definition check_run_yesterday : M bool :=
  resp ← http GetSubjects;
  lift (raise_for_status resp);;
  subjects ← lift (v ← response_json resp; py_get v "result" (JList []));
  subject_ids ← lift (items ← py_iter subjects; collect_subject_ids items);
  now ← utcnow;
  yesterday ← lift (minus_days now 1);
  resp2 ← http (PostMeasurements subject_ids yesterday);
  lift (raise_for_status resp2);;
  result ← lift (v ← response_json resp2; py_get v "result" JNull);
  mret (truthy result).

(** One iteration of the backfill loop, lines 167-172. *)
Definition backfill_day (token : json) (days_ago : Z) : M () :=
  now ← utcnow;
  day ← lift (minus_days now days_ago);
  print (FetchingFor (Ymd day));;
  data ← fetch_power_usage token (Some (Ymd day));
  print (SendingFor (Ymd day));;
  forward_to_blockbax data.

(** The body of the [try] of [main], lines 156-179. *)
Definition main_body (backfill_days : Z) : M () :=
  skip ← check_run_yesterday;
  if skip : bool then print AlreadySubmitted
  else
    print NoExistingMeasurements;;
    print Authenticating;;
    token ← get_access_token;
    if 0 <? backfill_days then
      print (Backfilling backfill_days);;
      for_each (range_down backfill_days) (backfill_day token);;
      print BackfillComplete
    else
      print FetchingYesterday;;
      data ← fetch_power_usage token None;
      print SendingData;;
      forward_to_blockbax data;;
      print Done.

(** Lines 154-181. *)
Definition main (backfill_days : Z) : M () :=
  try_except (main_body backfill_days) (λ e, print (ErrorOccurred e)).

End Script.

(** Lines 184-185: the interpreter ends with status 0 when [main()]
    returns and with status 1 when an exception leaves it. *)
Definition exit_status {A} (r : result A) : Z :=
  match r with Ok _ => 0 | Raise _ => 1 end.

(** ** Vocabulary of the specification *)

(** Order-preserving deduplication as the specification words it: among
    identifiers that are equal as set members only the first one seen is
    kept, at its place. *)
Fixpoint first_occurrences (ids : list json) : list json :=
  match ids with
  | [] => []
  | x :: rest =>
      x :: filter (λ y, hash_key y ≠ hash_key x) (first_occurrences rest)
  end.

(** A meter record bearing an identifier field. *)
Definition bears_id (m : json) : bool :=
  match m with
  | JDict d => match dict_lookup "id" d with Some _ => true | None => false end
  | _ => false
  end.

(** The shape the Meter Enumerator insists on: an object with a "meters"
    list. *)
Definition meters_object (v : json) (meters : list json) : Prop :=
  ∃ d, v = JDict d ∧ dict_lookup "meters" d = Some (JList meters).

(** The shape the specification describes: moreover every element of the
    list is a record bearing an identifier. *)
Definition strict_meters_shape (v : json) : Prop :=
  ∃ meters, meters_object v meters ∧ Forall (λ m, bears_id m = true) meters.

(** A non-success HTTP status, as [raise_for_status] sees it. *)
Definition http_error (r : response) : Prop :=
  400 ≤ status_code r < 600.

(** A request that did not yield a usable payload: the call raised, the
    status is an error, or the body is not JSON. *)
Definition failed (o : outcome) : Prop :=
  match o with
  | CallRaises => True
  | CallReturns r => http_error r ∨ body r = None
  end.

(** An answer to the token request from which [get_access_token] takes
    the token [tok]. *)
Definition grants (o : outcome) (tok : json) : Prop :=
  ∃ r d, o = CallReturns r ∧ ¬ http_error r ∧ body r = Some (JDict d) ∧
         dict_lookup "token" d = Some tok ∧ truthy tok = true.

(** A per-meter request of the Reading Fetcher. *)
Definition is_fetch (r : request) : Prop :=
  match r with GetDataRaw _ _ _ => True | _ => False end.

(** One fetch/forward cycle as the services see it: the meter list is
    requested, then one reading per meter, then the readings are posted. *)
Definition cycle_requests (token : json) (date : date_str)
    (ids data : list json) : list request :=
  GetMyMeters token :: ((λ id, GetDataRaw token id date) <$> ids)
    ++ [PostToBlockbax data].

(** The calendar days [today - D] through [today - 1], in ascending
    order, as day ordinals. *)
Definition backfill_days_of (today D : Z) : list Z :=
  (λ i, today - D + Z.of_nat i) <$> seq 0 (Z.to_nat D).

(** ** Sample worlds

    The services of the end-to-end scenarios: one subject list, one
    measurement search result, the token "T1", a meter-list answer and an
    answer per meter; the clock stands at 2026-11-04. *)

Definition ok_json (v : json) : outcome := CallReturns (Response 200 (Some v)).

Definition sample_world (subjects found : list json) (meters : outcome)
    (reading : json → outcome) : World :=
  {| server := λ _ r,
       match r with
       | GetSubjects => ok_json (JDict [("result", JList subjects)])
       | PostMeasurements _ _ => ok_json (JDict [("result", JList found)])
       | PostToken => ok_json (JDict [("token", JStr "T1")])
       | GetMyMeters _ => meters
       | GetDataRaw _ id _ => reading id
       | PostToBlockbax _ => ok_json JNull
       end;
     clock := λ _, 739924 |}.

Definition meter (id : string) : json := JDict [("id", JStr id)].

Definition T1 : json := JStr "T1".

Definition reading_of (id : json) : outcome := ok_json (JDict [("m", id)]).

Definition meters_AAB : outcome :=
  ok_json (JDict [("meters", JList [meter "A"; meter "A"; meter "B"])]).

(** Nothing ingested yet, meters A, A, B, every request succeeds. *)
Definition healthy : World :=
  sample_world [JDict [("id", JStr "s1")]] [] meters_AAB reading_of.

(** No subject at all in the project. *)
Definition no_subjects : World :=
  sample_world [] [] meters_AAB reading_of.

(** A measurement for yesterday is already there. *)
Definition already_ingested : World :=
  sample_world [JDict [("id", JStr "s1")]] [JDict [("value", JInt 1)]]
    meters_AAB reading_of.

(** The request for meter B is answered with status 500. *)
Definition flaky : World :=
  sample_world [JDict [("id", JStr "s1")]] [] meters_AAB
    (λ id, match id with
           | JStr "B" => CallReturns (Response 500 (Some (JDict [])))
           | _ => reading_of id
           end).

(** A meter list with a number and a record without "id" in it. *)
Definition sloppy : World :=
  sample_world [JDict [("id", JStr "s1")]] []
    (ok_json (JDict [("meters",
       JList [JInt 5; JDict [("name", JStr "x")]; meter "A"])]))
    reading_of.

(** The meter list comes as a bare list, not inside an object. *)
Definition shapeless : World :=
  sample_world [JDict [("id", JStr "s1")]] []
    (ok_json (JList [meter "A"])) reading_of.

(** ** Notions used in the proofs *)

(** An identifier whose key is not yet in [seen]. *)
Definition fresh (seen : gset pykey) (y : json) : Prop :=
  match hash_key y with Some k => k ∉ seen | None => True end.

#[global] Instance fresh_dec seen y : Decision (fresh seen y).
Proof. unfold fresh. destruct (hash_key y); apply _. Defined.

(** A response on which the script gives up: a failed per-meter request,
    or an answer to the meter-list request that is not an object with a
    "meters" list. *)
Definition rejected (r : request) (o : outcome) : Prop :=
  match r with
  | GetDataRaw _ _ _ => failed o
  | GetMyMeters _ =>
      ¬ ∃ resp v meters,
          o = CallReturns resp ∧ body resp = Some v ∧ meters_object v meters
  | _ => False
  end.

(** Past the prefix [p], no request of the trace [t] was answered by a
    rejected response. *)
Definition clean_after (w : World) (p t : list event) : Prop :=
  ∀ t1 r t2, t = p ++ t1 ++ Call r :: t2 →
    ¬ rejected r (server w (requests_of (p ++ t1)) r).

(** Past the prefix [p], a request of [t] answered by a rejected response
    is the last request of [t]. *)
Definition quiet_after (w : World) (p t : list event) : Prop :=
  ∀ t1 r t2, t = p ++ t1 ++ Call r :: t2 →
    rejected r (server w (requests_of (p ++ t1)) r) → requests_of t2 = [].

(** A computation that, started before any rejected response, either ends
    without one or raises with the rejected request as the last one. *)
Definition safe {A} (w : World) (p : list event) (m : M A) : Prop :=
  ∀ s res s', clean_after w p (events s) → m s = (res, s') →
    clean_after w p (events s') ∨
    ((∃ e, res = Raise e) ∧ quiet_after w p (events s')).

(** ** Further vocabulary *)

(** A decoded value that is neither text nor a container: [None], a
    boolean or a number. *)
Definition scalar (v : json) : Prop :=
  match v with
  | JNull | JBool _ | JInt _ | JFloat _ => True
  | _ => False
  end.

(** An identifier that is an integer or a text. *)
Definition plain_id (v : json) : Prop :=
  match v with
  | JInt _ | JStr _ => True
  | _ => False
  end.

(** [d.get(k)]: the value, [None] for a missing key. *)
Definition dict_get (k : string) (d : list (string * json)) : json :=
  match dict_lookup k d with Some x => x | None => JNull end.

(** [data] holds, position by position, the decoded bodies of the
    successful answers to the requests [fetch id] for [ids], issued in
    order after the requests [hist]. *)
Definition bodies_of (w : World) (hist : list request) (fetch : json → request)
    (ids data : list json) : Prop :=
  length data = length ids ∧
  ∀ k id, ids !! k = Some id →
    ∃ r, server w (hist ++ (fetch <$> take k ids)) (fetch id) = CallReturns r ∧
         ¬ http_error r ∧ body r = data !! k.



(** An answer the script cannot use: the call raised, the status is 4xx
    or 5xx, or -- for every call but the forward, whose answer is not
    read -- the body is not JSON. *)
Definition unusable (r : request) (o : outcome) : Prop :=
  match o with
  | CallRaises => True
  | CallReturns resp =>
      http_error resp ∨
      (body resp = None ∧ match r with PostToBlockbax _ => False | _ => True end)
  end.

(** Past the prefix [p], every request of the trace [t] got a usable
    answer. *)
Definition steady_after (w : World) (p t : list event) : Prop :=
  ∀ t1 r t2, t = p ++ t1 ++ Call r :: t2 →
    ¬ unusable r (server w (requests_of (p ++ t1)) r).

(** Past the prefix [p], a request of [t] with an unusable answer is the
    last request of [t]. *)
Definition stopped_after (w : World) (p t : list event) : Prop :=
  ∀ t1 r t2, t = p ++ t1 ++ Call r :: t2 →
    unusable r (server w (requests_of (p ++ t1)) r) → requests_of t2 = [].

(** A computation that, started with usable answers only, either ends so
    or raises with the unusable answer as that of its last request. *)
Definition failfast {A} (w : World) (p : list event) (m : M A) : Prop :=
  ∀ s res s', steady_after w p (events s) → m s = (res, s') →
    steady_after w p (events s') ∨
    ((∃ e, res = Raise e) ∧ stopped_after w p (events s')).

(** A request made on behalf of the token [tok]: a provider request that
    carries it, or the forward of what was fetched with it. *)
Definition carries (tok : json) (r : request) : Prop :=
  match r with
  | GetMyMeters t => t = tok
  | GetDataRaw t _ _ => t = tok
  | PostToBlockbax _ => True
  | _ => False
  end.

(** A computation all of whose requests satisfy [P], however it ends. *)
Definition only {A} (P : request → Prop) (m : M A) : Prop :=
  ∀ s res s', m s = (res, s') →
    ∃ rs, requests_of (events s') = requests_of (events s) ++ rs ∧ Forall P rs.

(** The days of the cycles of a backfill, as line 167 computes them: the
    i-th iteration (from 0) has [days_ago = D - i] and takes the UTC day
    from its own reading of the clock, the [(n + i)]-th of the run. *)
Definition backfill_days_read (w : World) (n : nat) (D : Z) : list Z :=
  imap (λ i days_ago, clock w (n + i) - days_ago) (range_down D).

(** Steps 1 and 2 of [fetch_power_usage] for the day with ordinal [y]. *)
Definition fetch_on (w : World) (tok : json) (y : Z) : M (list json) :=
  meter_enumerator w tok ≫= λ ids, reading_fetcher w tok (Ymd y) ids [].

(** A result that is not the [ValueError] of line 86. *)
Definition no_format_error {A} (r : result A) : Prop :=
  ∀ v, r ≠ Raise (UnexpectedMetersFormat v).



(** Two states that differ at most in the lines printed. *)
Definition alike (s1 s2 : state) : Prop :=
  requests_of (events s1) = requests_of (events s2) ∧
  clock_reads s1 = clock_reads s2.

(** Two computations that, from alike states, end the same way in alike
    states. *)
Definition agree {A} (m1 m2 : M A) : Prop :=
  ∀ s1 s2, alike s1 s2 → (m1 s1).1 = (m2 s2).1 ∧ alike (m1 s1).2 (m2 s2).2.

(** A meter list with a list as identifier of its second record. *)
Definition unhashable_meter : World :=
  sample_world [JDict [("id", JStr "s1")]] []
    (ok_json (JDict [("meters",
       JList [meter "A"; JDict [("id", JList [JInt 1])]])]))
    reading_of.

(** The token endpoint answers 200 with an object that has no token. *)
Definition tokenless : World :=
  {| server := λ _ r,
       match r with
       | GetSubjects => ok_json (JDict [("result", JList [])])
       | PostMeasurements _ _ => ok_json (JDict [])
       | PostToken => ok_json (JDict [("error", JStr "denied")])
       | GetMyMeters _ => meters_AAB
       | GetDataRaw _ id _ => reading_of id
       | PostToBlockbax _ => ok_json JNull
       end;
     clock := λ _, 739924 |}.

(** The subject listing holds a number among the subjects. *)
Definition odd_subjects : World :=
  sample_world [JDict [("id", JStr "s1")]; JInt 7] [] meters_AAB reading_of.

(** The readings of 2026-11-03 cannot be had (status 503, no JSON); those
    of other days can. *)
Definition flaky_yesterday : World :=
  {| server := λ _ r,
       match r with
       | GetSubjects => ok_json (JDict [("result", JList [])])
       | PostMeasurements _ _ => ok_json (JDict [("result", JList [])])
       | PostToken => ok_json (JDict [("token", JStr "T1")])
       | GetMyMeters _ => ok_json (JDict [("meters", JList [meter "A"])])
       | GetDataRaw _ id (Ymd d) =>
           if d =? 739923 then CallReturns (Response 503 None) else reading_of id
       | PostToBlockbax _ => ok_json JNull
       end;
     clock := λ _, 739924 |}.

(** The states of a run in [healthy] (and in [meterless]) after the check
    and after the token request. *)
Definition checked : state :=
  State [Call GetSubjects; Call (PostMeasurements [JStr "s1"] 739923)] 1.

Definition authenticated : state :=
  State [Call GetSubjects; Call (PostMeasurements [JStr "s1"] 739923);
         Print NoExistingMeasurements; Print Authenticating; Call PostToken] 1.

(** An account without meters. *)
Definition meterless : World :=
  sample_world [JDict [("id", JStr "s1")]] []
    (ok_json (JDict [("meters", JList [])])) reading_of.

(** Meters B and A, in that order, each once. *)
Definition two_meters : World :=
  sample_world [JDict [("id", JStr "s1")]] []
    (ok_json (JDict [("meters", JList [meter "B"; meter "A"])])) reading_of.

(** The str of one lone surrogate, U+D800: what the decoder yields for
    the JSON string with the escape [\ud800]. *)
Definition lone_surrogate : string :=
  String (Ascii.ascii_of_nat 237)
    (String (Ascii.ascii_of_nat 160)
       (String (Ascii.ascii_of_nat 128) EmptyString)).

(** The meter-list request is answered with status 200 and that JSON
    string as the body. *)
Definition garbled : World :=
  sample_world [JDict [("id", JStr "s1")]] []
    (ok_json (JStr lone_surrogate)) reading_of.

(** Meters A and one whose identifier is that str; the readings of the
    latter are refused with status 500. *)
Definition unnameable : World :=
  sample_world [JDict [("id", JStr "s1")]] []
    (ok_json (JDict [("meters", JList [meter "A"; meter lone_surrogate])]))
    (λ id, match id with
           | JStr "A" => reading_of id
           | _ => CallReturns (Response 500 None)
           end).

(** The services of [healthy] on a run during which the UTC day changes:
    the first two readings of the clock fall on 2026-11-04, the later
    ones on 2026-11-05. *)
Definition midnight : World :=
  {| server := server healthy;
     clock := λ n, if (n <? 2)%nat then 739924 else 739925 |}.

(** * Properties *)

(** ** Values and set membership *)

Example ascii_is_encodable : encodable "meter-7" = true.
Proof. reflexivity. Qed.

Example lone_surrogate_is_not_encodable :
  encodable lone_surrogate = false ∧
  encodable ("A" ++ lone_surrogate ++ "B") = false.
Proof. split; reflexivity. Qed.

(** U+D7FF and U+E000, the neighbours of the surrogates, are the bytes
    [ED 9F BF] and [EE 80 80]. *)
Example surrogate_neighbours_are_encodable :
  encodable (String (Ascii.ascii_of_nat 237)
               (String (Ascii.ascii_of_nat 159)
                  (String (Ascii.ascii_of_nat 191) EmptyString))) = true ∧
  encodable (String (Ascii.ascii_of_nat 238)
               (String (Ascii.ascii_of_nat 128)
                  (String (Ascii.ascii_of_nat 128) EmptyString))) = true.
Proof. split; reflexivity. Qed.


Example hash_true_is_one : hash_key (JBool true) = hash_key (JInt 1).
Proof. reflexivity. Qed.

Example hash_float_four :
  hash_key (JFloat (S754_finite false 1 2)) = hash_key (JInt 4).
Proof. reflexivity. Qed.

Example hash_text_one : hash_key (JStr "1") ≠ hash_key (JInt 1).
Proof. discriminate. Qed.

Example substring_of_key : is_substring "id" "grid" = true.
Proof. reflexivity. Qed.

(** A subject that is a string containing "id" passes the filter of line
    135 and then fails on [s["id"]]; iterating a string gives its
    characters, none of which contains "id". *)
Example subjects_of_strings :
  collect_subject_ids [JStr "grid"] = Raise TypeError ∧
  py_iter (JStr "grid") ≫= collect_subject_ids = Ok [].
Proof. split; reflexivity. Qed.

(** ** Deduplication *)

Lemma fresh_empty y : fresh ∅ y.
Proof. unfold fresh. destruct (hash_key y); [set_solver | done]. Qed.

Lemma filter_fresh_empty (l : list json) : filter (fresh ∅) l = l.
Proof.
  induction l as [|x l IH]; [done|].
  rewrite filter_cons_True by apply fresh_empty. by rewrite IH.
Qed.

Lemma dedup_loop_first_occurrences (l : list json) :
  ∀ seen acc r,
    dedup_loop l seen acc = Ok r →
    r = acc ++ filter (fresh seen) (first_occurrences l).
Proof.
  induction l as [|x l IH]; intros seen acc r; simpl.
  - intros [= <-]. by rewrite filter_nil, app_nil_r.
  - destruct (hash_key x) as [k|] eqn:Hk; [|done].
    destruct (decide (k ∈ seen)) as [Hin|Hin]; intros Hr; apply IH in Hr as ->.
    + rewrite filter_cons_False by (unfold fresh; rewrite Hk; tauto).
      rewrite list_filter_filter_l; [done|].
      intros y Hy Heq. unfold fresh in Hy. rewrite Heq in Hy. tauto.
    + rewrite filter_cons_True by (unfold fresh; by rewrite Hk).
      rewrite <-app_assoc. simpl. do 2 f_equal.
      rewrite list_filter_filter. apply list_filter_iff.
      intros y. unfold fresh. destruct (hash_key y) as [k'|].
      * rewrite not_elem_of_union, not_elem_of_singleton. naive_solver.
      * naive_solver.
Qed.

Lemma first_occurrences_sublist (l : list json) :
  first_occurrences l `sublist_of` l.
Proof.
  induction l as [|x l IH]; simpl; [done|].
  apply sublist_skip. etrans; [apply sublist_filter | done].
Qed.

Lemma first_occurrences_NoDup (l : list json) :
  NoDup (hash_key <$> first_occurrences l).
Proof.
  induction l as [|x l IH]; [constructor|].
  cbn [first_occurrences]. rewrite fmap_cons. apply NoDup_cons. split.
  - intros (y & Hy & Hin)%list_elem_of_fmap.
    apply list_elem_of_filter in Hin as [Hne _]. congruence.
  - eapply sublist_NoDup; [exact IH|].
    apply fmap_sublist, sublist_filter.
Qed.

Lemma first_occurrences_covers (l : list json) x :
  x ∈ l → ∃ y, y ∈ first_occurrences l ∧ hash_key y = hash_key x.
Proof.
  induction l as [|a l IH]; [by intros ?%elem_of_nil|].
  intros [->|Hin]%elem_of_cons; simpl.
  - exists a. split; [left|done].
  - destruct (decide (hash_key x = hash_key a)) as [Heq|Hne].
    + exists a. split; [left|done].
    + destruct (IH Hin) as (y & Hy & Hyx). exists y. split; [|done].
      right. apply list_elem_of_filter. split; [congruence|done].
Qed.

Lemma dedup_loop_hashable (l : list json) :
  ∀ seen acc,
    Forall (λ x, is_Some (hash_key x)) l ↔ ∃ r, dedup_loop l seen acc = Ok r.
Proof.
  induction l as [|x l IH]; intros seen acc; simpl.
  - split; [eauto|constructor].
  - destruct (hash_key x) as [k|] eqn:Hk.
    + rewrite Forall_cons, Hk.
      destruct (decide (k ∈ seen)); rewrite <-IH; naive_solver.
    + split; [intros [[? ?] _]%Forall_cons; congruence|by intros [? ?]].
Qed.

(** ** The comprehension over the meter list *)

Lemma meter_ids_of_skip (m : json) (l : list json) :
  bears_id m = false → meter_ids_of (m :: l) = meter_ids_of l.
Proof.
  destruct m; try done. simpl. by destruct (dict_lookup "id" d).
Qed.

Lemma meter_ids_of_filter (l : list json) :
  meter_ids_of (filter (λ m, bears_id m = true) l) = meter_ids_of l.
Proof.
  induction l as [|m l IH]; [done|].
  destruct (bears_id m) eqn:Hm.
  - rewrite filter_cons_True by done.
    destruct m; try done. simpl in *.
    destruct (dict_lookup "id" d); [by rewrite IH | done].
  - rewrite filter_cons_False by congruence.
    by rewrite meter_ids_of_skip.
Qed.

(** ** Running computations *)

Lemma bind_run {A B} (m : M A) (f : A → M B) s :
  (m ≫= f) s =
  match m s with (Ok a, s1) => f a s1 | (Raise e, s1) => (Raise e, s1) end.
Proof. reflexivity. Qed.

Lemma bind_Ok {A B} (m : M A) (f : A → M B) s b s' :
  (m ≫= f) s = (Ok b, s') → ∃ a s1, m s = (Ok a, s1) ∧ f a s1 = (Ok b, s').
Proof. rewrite bind_run. destruct (m s) as [[a|e] s1]; [eauto|done]. Qed.

Lemma result_bind_Ok {A B} (a : A) (f : A → result B) : Ok a ≫= f = f a.
Proof. reflexivity. Qed.

Lemma lift_inv {A} (r : result A) s res s' :
  lift r s = (res, s') → res = r ∧ s' = s.
Proof. by intros [= <- <-]. Qed.

Lemma print_run m s :
  print m s =
  if printable m then (Ok (), State (events s ++ [Print m]) (clock_reads s))
  else (Raise UnicodeEncodeError, s).
Proof. reflexivity. Qed.

Lemma print_cases m s res s' :
  print m s = (res, s') →
  (printable m = true ∧ res = Ok () ∧
   s' = State (events s ++ [Print m]) (clock_reads s)) ∨
  (printable m = false ∧ res = Raise UnicodeEncodeError ∧ s' = s).
Proof.
  rewrite print_run. destruct (printable m); intros [= <- <-]; auto.
Qed.

Lemma print_inv m s u s' :
  print m s = (Ok u, s') →
  printable m = true ∧ s' = State (events s ++ [Print m]) (clock_reads s).
Proof. intros [(? & _ & ?)|(_ & [=] & _)]%print_cases. done. Qed.

Lemma print_requests m s res s' :
  print m s = (res, s') →
  requests_of (events s') = requests_of (events s) ∧
  clock_reads s' = clock_reads s.
Proof.
  intros [(_ & _ & ->)|(_ & _ & ->)]%print_cases; [|done].
  split; [|done]. cbn [events]. unfold requests_of. rewrite omap_app.
  apply app_nil_r.
Qed.

Lemma try_except_run {A} (m : M A) (h : exn → M A) s :
  try_except m h s =
  match m s with (Ok a, s1) => (Ok a, s1) | (Raise e, s1) => h e s1 end.
Proof. reflexivity. Qed.

(** The handlers of the script other than the one of [main] print one
    line and re-raise; when the line cannot be encoded, the error of the
    [print] goes up instead. *)
Lemma reraise_inv {A} (m : M A) msg s res s' :
  try_except m (λ e, print (msg e);; raise e) s = (res, s') →
  (∃ a, res = Ok a ∧ m s = (Ok a, s')) ∨
  (∃ e s1, m s = (Raise e, s1) ∧
     ((printable (msg e) = true ∧ res = Raise e ∧
       s' = State (events s1 ++ [Print (msg e)]) (clock_reads s1)) ∨
      (printable (msg e) = false ∧ res = Raise UnicodeEncodeError ∧ s' = s1))).
Proof.
  rewrite try_except_run. destruct (m s) as [[a|e] s1].
  - intros [= <- <-]. left. eauto.
  - rewrite bind_run, print_run. right. exists e, s1. split; [done|].
    destruct (printable (msg e)); injection H as <- <-; auto.
Qed.

Lemma requests_of_app t1 t2 :
  requests_of (t1 ++ t2) = requests_of t1 ++ requests_of t2.
Proof. apply omap_app. Qed.

Lemma requests_of_calls (rs : list request) : requests_of (Call <$> rs) = rs.
Proof. induction rs as [|r rs IH]; [done|]. cbn. f_equal. exact IH. Qed.

Lemma requests_of_snoc_print t m : requests_of (t ++ [Print m]) = requests_of t.
Proof. rewrite requests_of_app. apply app_nil_r. Qed.

Lemma requests_of_snoc_call t r : requests_of (t ++ [Call r]) = requests_of t ++ [r].
Proof. by rewrite requests_of_app. Qed.

Lemma raise_for_status_Ok r :
  raise_for_status r = Ok () ↔ ¬ http_error r.
Proof.
  unfold raise_for_status, http_error.
  destruct (400 <=? status_code r) eqn:H1; destruct (status_code r <? 600) eqn:H2;
    simpl; split; try done; try lia; intros H; exfalso; apply H; lia.
Qed.


Ltac tidy :=
  cbn [events clock_reads];
  rewrite ?requests_of_snoc_print, ?requests_of_snoc_call.

Section Components.
Context (w : World).

Lemma http_inv r s res s' :
  http w r s = (res, s') →
  s' = State (events s ++ [Call r]) (clock_reads s) ∧
  match server w (requests_of (events s)) r with
  | CallRaises => res = Raise RequestException
  | CallReturns resp => res = Ok resp
  end.
Proof.
  unfold http. destruct (server w _ r); by intros [= <- <-].
Qed.

Lemma http_Ok r s resp s' :
  http w r s = (Ok resp, s') →
  s' = State (events s ++ [Call r]) (clock_reads s) ∧
  server w (requests_of (events s)) r = CallReturns resp.
Proof.
  intros [-> H]%http_inv. split; [done|].
  destruct (server w _ r); by inversion H.
Qed.

Lemma utcnow_inv s res s' :
  utcnow w s = (res, s') →
  res = Ok (clock w (clock_reads s)) ∧ s' = State (events s) (S (clock_reads s)).
Proof. by intros [= <- <-]. Qed.

(** *** The Meter Enumerator, as a function of the server's answer *)

Lemma meter_enumerator_run tok s :
  meter_enumerator w tok s =
  let s1 := State (events s ++ [Call (GetMyMeters tok)]) (clock_reads s) in
  match server w (requests_of (events s)) (GetMyMeters tok) with
  | CallRaises => (Raise RequestException, s1)
  | CallReturns r =>
      match raise_for_status r with
      | Raise e => (Raise e, s1)
      | Ok _ =>
          match response_json r ≫= parse_meters with
          | Ok ids => (Ok ids, s1)
          | Raise e =>
              (Raise e,
               State (events s1 ++ [Print (FailedToParseMeters (status_code r))])
                     (clock_reads s))
          end
      end
  end.
Proof.
  unfold meter_enumerator. rewrite bind_run. unfold http.
  destruct (server w _ _) as [|r]; [done|].
  rewrite bind_run. unfold lift at 1.
  destruct (raise_for_status r) as [[]|e]; [|done].
  rewrite try_except_run, bind_run. unfold lift.
  destruct (response_json r) as [v|e]; [|done]. simpl.
  by destruct (parse_meters v).
Qed.

Lemma parse_meters_Ok v ids :
  parse_meters v = Ok ids →
  ∃ meters, meters_object v meters ∧
            ids = first_occurrences (meter_ids_of meters).
Proof.
  unfold parse_meters. destruct v; try done.
  destruct (dict_lookup "meters" d) as [[]|] eqn:Hd; try done.
  intros H%dedup_loop_first_occurrences. exists l. split; [by exists d|].
  by rewrite H, filter_fresh_empty.
Qed.

Lemma meter_enumerator_Ok tok s ids s' :
  meter_enumerator w tok s = (Ok ids, s') →
  s' = State (events s ++ [Call (GetMyMeters tok)]) (clock_reads s) ∧
  ∃ r v, server w (requests_of (events s)) (GetMyMeters tok) = CallReturns r ∧
         ¬ http_error r ∧ body r = Some v ∧ parse_meters v = Ok ids.
Proof.
  rewrite meter_enumerator_run. cbv zeta.
  destruct (server w _ _) as [|r]; [done|].
  destruct (raise_for_status r) as [[]|] eqn:Hst; [|done].
  unfold response_json.
  destruct (body r) as [v|] eqn:Hb; [|done]. simpl.
  destruct (parse_meters v) eqn:Hp; [|done].
  intros [= <- <-]. split; [done|]. exists r, v.
  by rewrite <-raise_for_status_Ok.
Qed.

(** *** The Reading Fetcher *)

Lemma reading_fetcher_step tok date id rest acc s :
  reading_fetcher w tok date (id :: rest) acc s =
  let s1 := State (events s ++ [Call (GetDataRaw tok id date)]) (clock_reads s) in
  match server w (requests_of (events s)) (GetDataRaw tok id date) with
  | CallRaises => (Raise RequestException, s1)
  | CallReturns r =>
      match raise_for_status r ≫= λ _, response_json r with
      | Ok v => reading_fetcher w tok date rest (acc ++ [v]) s1
      | Raise e =>
          if str_encodable id
          then (Raise e,
                State (events s1 ++ [Print (FailedToFetch id (status_code r))])
                      (clock_reads s))
          else (Raise UnicodeEncodeError, s1)
      end
  end.
Proof.
  cbn [reading_fetcher]. rewrite bind_run. unfold http.
  destruct (server w _ _) as [|r]; [done|].
  rewrite bind_run, try_except_run, bind_run. unfold lift at 1.
  destruct (raise_for_status r) as [[]|e].
  - rewrite bind_run. unfold lift.
    destruct (response_json r) as [v|e]; [done|].
    rewrite bind_run, print_run. cbn [printable]. by destruct (str_encodable id).
  - rewrite bind_run, print_run. cbn [printable]. by destruct (str_encodable id).
Qed.

Lemma payload_Ok r v :
  raise_for_status r ≫= (λ _, response_json r) = Ok v ↔
  ¬ http_error r ∧ body r = Some v.
Proof.
  rewrite <-raise_for_status_Ok. unfold response_json.
  destruct (raise_for_status r) as [[]|]; simpl; [|naive_solver].
  destruct (body r); naive_solver.
Qed.

Lemma not_failed o :
  ¬ failed o ↔ ∃ r v, o = CallReturns r ∧ ¬ http_error r ∧ body r = Some v.
Proof.
  destruct o as [|r]; simpl; [naive_solver|]. split.
  - intros H. exists r. destruct (body r) as [v|]; [|tauto].
    exists v. tauto.
  - intros (? & v & [= <-] & ? & Hv). rewrite Hv. naive_solver.
Qed.

Lemma reading_fetcher_Ok tok date ids :
  ∀ acc s data s',
    reading_fetcher w tok date ids acc s = (Ok data, s') →
    s' = State (events s ++ (Call <$> ((λ id, GetDataRaw tok id date) <$> ids)))
               (clock_reads s) ∧
    ∃ new, data = acc ++ new ∧ length new = length ids.
Proof.
  induction ids as [|id rest IH]; intros acc s data s'.
  - intros [= <- <-]. split; [destruct s; simpl; by rewrite app_nil_r|].
    exists []. by rewrite app_nil_r.
  - rewrite reading_fetcher_step. cbv zeta.
    destruct (server w _ _) as [|r]; [done|].
    destruct (_ ≫= _) as [v|]; [|by destruct (str_encodable id)].
    intros (-> & new & -> & Hlen)%IH. split.
    + simpl. by rewrite <-app_assoc.
    + exists (v :: new). rewrite <-app_assoc. split; [done|]. simpl. by rewrite Hlen.
Qed.

Lemma reading_fetcher_total tok date ids :
  ∀ acc s,
    (∀ k id, ids !! k = Some id →
       ¬ failed (server w
           (requests_of (events s) ++ ((λ id, GetDataRaw tok id date) <$> take k ids))
           (GetDataRaw tok id date))) →
    ∃ new s',
      reading_fetcher w tok date ids acc s = (Ok (acc ++ new), s') ∧
      ∀ k id, ids !! k = Some id →
        ∃ r v, server w
            (requests_of (events s) ++ ((λ id, GetDataRaw tok id date) <$> take k ids))
            (GetDataRaw tok id date) = CallReturns r ∧
          ¬ http_error r ∧ body r = Some v ∧ new !! k = Some v.
Proof.
  induction ids as [|id rest IH]; intros acc s Hall.
  - exists [], s. rewrite app_nil_r. split; [done|]. intros k id Hk. by rewrite lookup_nil in Hk.
  - rewrite reading_fetcher_step. cbv zeta.
    pose proof (Hall 0%nat id eq_refl) as H0. simpl in H0. rewrite app_nil_r in H0.
    apply not_failed in H0 as (r & v & Hr & Herr & Hbody). rewrite Hr.
    assert (Hp : raise_for_status r ≫= (λ _, response_json r) = Ok v)
      by by apply payload_Ok.
    rewrite Hp.
    destruct (IH (acc ++ [v])
                (State (events s ++ [Call (GetDataRaw tok id date)]) (clock_reads s)))
      as (new & s' & Hrun & Hnew).
    { intros k id' Hk. tidy. rewrite <-app_assoc. apply (Hall (S k) id' Hk). }
    exists (v :: new), s'. split.
    + by rewrite Hrun, <-app_assoc.
    + intros [|k] id' Hk.
      * injection Hk as <-. exists r, v. simpl. by rewrite app_nil_r.
      * destruct (Hnew k id' Hk) as (r' & v' & Hs & ? & ? & ?).
        exists r', v'. revert Hs. tidy. rewrite <-app_assoc. done.
Qed.

End Components.

(** ** Giving up on a rejected response *)

Lemma snoc_split {A} (t : list A) x a y t2 :
  t ++ [x] = a ++ y :: t2 →
  (t2 = [] ∧ t = a ∧ x = y) ∨ (∃ t2', t2 = t2' ++ [x] ∧ t = a ++ y :: t2').
Proof.
  destruct t2 as [|z t2 _] using rev_ind.
  - intros [-> ->]%(app_inj_tail t a x y). by left.
  - change (a ++ y :: t2 ++ [z]) with (a ++ (y :: t2) ++ [z]).
    rewrite app_assoc. intros [-> ->]%app_inj_tail. right. eauto.
Qed.

Section Safety.
Context (w : World) (p : list event).

Lemma clean_start : clean_after w p p.
Proof.
  intros t1 r t2 H. exfalso.
  rewrite <-(app_nil_r p) in H at 1. apply app_inv_head in H.
  by destruct t1.
Qed.

Lemma clean_quiet t : clean_after w p t → quiet_after w p t.
Proof. intros H t1 r t2 Heq Hf. by destruct (H t1 r t2). Qed.

Lemma clean_print t m : clean_after w p t → clean_after w p (t ++ [Print m]).
Proof.
  intros H t1 r t2 Heq. rewrite app_assoc in Heq.
  apply snoc_split in Heq as [(_ & _ & [=])|(t2' & -> & ->)].
  apply (H t1 r t2'). by rewrite <-app_assoc.
Qed.

Lemma quiet_print t m : quiet_after w p t → quiet_after w p (t ++ [Print m]).
Proof.
  intros H t1 r t2 Heq Hf. rewrite app_assoc in Heq.
  apply snoc_split in Heq as [(_ & _ & [=])|(t2' & -> & ->)].
  rewrite requests_of_snoc_print. eapply H; [|done]. by rewrite <-app_assoc.
Qed.

Lemma clean_call t r :
  clean_after w p t →
  ¬ rejected r (server w (requests_of t) r) →
  clean_after w p (t ++ [Call r]).
Proof.
  intros H Hr t1 r' t2 Heq. rewrite app_assoc in Heq.
  apply snoc_split in Heq as [(_ & -> & [= ->])|(t2' & -> & ->)]; [done|].
  apply (H t1 r' t2'). by rewrite <-app_assoc.
Qed.

Lemma quiet_call t r : clean_after w p t → quiet_after w p (t ++ [Call r]).
Proof.
  intros H t1 r' t2 Heq Hf. rewrite app_assoc in Heq.
  apply snoc_split in Heq as [(-> & _ & _)|(t2' & -> & ->)]; [done|].
  destruct (H t1 r' t2'); [by rewrite <-app_assoc|done].
Qed.

Lemma safe_ret {A} (a : A) : safe w p (mret a).
Proof. intros s res s' Hc [= <- <-]. by left. Qed.

Lemma safe_raise {A} e : safe w p (raise e : M A).
Proof. intros s res s' Hc [= <- <-]. by left. Qed.

Lemma safe_lift {A} (r : result A) : safe w p (lift r).
Proof. intros s res s' Hc [= <- <-]. by left. Qed.

Lemma safe_print m : safe w p (print m).
Proof.
  intros s res s' Hc [(_ & _ & ->)|(_ & _ & ->)]%print_cases; left;
    [by apply clean_print|done].
Qed.

Lemma safe_utcnow : safe w p (utcnow w).
Proof. intros s res s' Hc [= <- <-]. by left. Qed.

Lemma safe_http r : (∀ o, ¬ rejected r o) → safe w p (http w r).
Proof.
  intros Hr s res s' Hc [-> _]%http_inv. left. by apply clean_call.
Qed.

Lemma safe_bind {A B} (m : M A) (f : A → M B) :
  safe w p m → (∀ a, safe w p (f a)) → safe w p (m ≫= f).
Proof.
  intros Hm Hf s res s' Hc. rewrite bind_run.
  destruct (m s) as [[a|e] s1] eqn:Hms.
  - destruct (Hm _ _ _ Hc Hms) as [Hc1|[[? [=]] _]]. by apply Hf.
  - intros [= <- <-].
    destruct (Hm _ _ _ Hc Hms) as [?|[_ ?]]; [by left|right; eauto].
Qed.

Lemma safe_reraise {A} (m : M A) msg :
  safe w p m → safe w p (try_except m (λ e, print (msg e);; raise e)).
Proof.
  intros Hm s res s' Hc
    [(a & -> & Hms)|(e & s1 & Hms & [(_ & -> & ->)|(_ & -> & ->)])]%reraise_inv.
  - apply (Hm _ _ _ Hc Hms).
  - destruct (Hm _ _ _ Hc Hms) as [Hc1|[_ Hq]]; simpl.
    + left. by apply clean_print.
    + right. split; [eauto|]. by apply quiet_print.
  - destruct (Hm _ _ _ Hc Hms) as [Hc1|[_ Hq]]; [by left|right; eauto].
Qed.

Lemma safe_for_each {A} (l : list A) (body : A → M ()) :
  (∀ x, safe w p (body x)) → safe w p (for_each l body).
Proof.
  intros Hb. induction l as [|x l IH]; simpl.
  - apply safe_ret.
  - apply safe_bind; [apply Hb | by intros _].
Qed.

Lemma safe_reading_fetcher tok date ids :
  ∀ acc, safe w p (reading_fetcher w tok date ids acc).
Proof.
  induction ids as [|id rest IH]; intros acc; [apply safe_ret|].
  intros s res s' Hc. rewrite reading_fetcher_step. cbv zeta.
  destruct (server w _ _) as [|r] eqn:Hs.
  - intros [= <- <-]. right. split; [eauto|]. by apply quiet_call.
  - destruct (_ ≫= _) as [v|e] eqn:Hp.
    + apply IH. simpl. apply clean_call; [done|]. rewrite Hs.
      apply payload_Ok in Hp as [? Hv]. simpl. rewrite Hv. naive_solver.
    + destruct (str_encodable id); intros [= <- <-]; (right; split; [eauto|]);
        simpl; [by apply quiet_print, quiet_call | by apply quiet_call].
Qed.

Lemma safe_meter_enumerator tok : safe w p (meter_enumerator w tok).
Proof.
  intros s res s' Hc. rewrite meter_enumerator_run. cbv zeta.
  destruct (server w _ _) as [|r] eqn:Hs.
  { intros [= <- <-]. right. split; [eauto|]. by apply quiet_call. }
  destruct (raise_for_status r).
  2:{ intros [= <- <-]. right. split; [eauto|]. by apply quiet_call. }
  destruct (_ ≫= _) as [ids|e] eqn:Hp; intros [= <- <-].
  - left. simpl. apply clean_call; [done|]. rewrite Hs. simpl.
    intros Hno. apply Hno. unfold response_json in Hp.
    destruct (body r) as [v|] eqn:Hb; [|done]. simpl in Hp.
    apply parse_meters_Ok in Hp as (meters & ? & _). by exists r, v, meters.
  - right. split; [eauto|]. simpl. by apply quiet_print, quiet_call.
Qed.

Ltac safe_step :=
  first
    [ apply safe_print | apply safe_lift | apply safe_ret | apply safe_raise
    | apply safe_utcnow | apply safe_reading_fetcher
    | apply safe_http; intros ?; simpl; tauto
    | apply safe_reraise
    | apply safe_for_each; intros ?
    | apply safe_bind; [|intros ?]
    | match goal with
      | |- safe _ _ (if ?b then _ else _) => destruct b
      | |- safe _ _ (match ?x with _ => _ end) => destruct x
      end ].

Lemma safe_get_access_token : safe w p (get_access_token w).
Proof. unfold get_access_token. repeat safe_step. Qed.

Lemma safe_fetch_power_usage tok date : safe w p (fetch_power_usage w tok date).
Proof.
  unfold fetch_power_usage.
  apply safe_bind; [destruct date; repeat safe_step|intros ?].
  apply safe_bind; [apply safe_meter_enumerator|intros ?]. safe_step.
Qed.

Lemma safe_forward_to_blockbax data : safe w p (forward_to_blockbax w data).
Proof. unfold forward_to_blockbax. repeat safe_step. Qed.

Lemma safe_check_run_yesterday : safe w p (check_run_yesterday w).
Proof. unfold check_run_yesterday. repeat safe_step. Qed.

Lemma safe_backfill_day tok days_ago : safe w p (backfill_day w tok days_ago).
Proof.
  unfold backfill_day.
  repeat first [apply safe_fetch_power_usage | apply safe_forward_to_blockbax | safe_step].
Qed.

Lemma safe_main_body D : safe w p (main_body w D).
Proof.
  unfold main_body.
  repeat first
    [ apply safe_check_run_yesterday | apply safe_get_access_token
    | apply safe_fetch_power_usage | apply safe_forward_to_blockbax
    | apply safe_backfill_day | safe_step ].
Qed.

Lemma main_quiet D s res s' :
  clean_after w p (events s) → main w D s = (res, s') →
  quiet_after w p (events s').
Proof.
  intros Hc. unfold main. rewrite try_except_run.
  destruct (main_body w D s) as [[[]|e] s1] eqn:Hb.
  - intros [= <- <-].
    destruct (safe_main_body D _ _ _ Hc Hb) as [?|[_ ?]]; [by apply clean_quiet|done].
  - intros [(_ & _ & ->)|(_ & _ & ->)]%print_cases; [simpl; apply quiet_print|];
      (destruct (safe_main_body D _ _ _ Hc Hb) as [?|[_ ?]];
         [by apply clean_quiet|done]).
Qed.

End Safety.

(** C4.  A per-meter request that fails (the call raises, the status is
    4xx/5xx, or the body is not JSON) ends the fetch operation at once:
    [fetch_power_usage] raises, so no readings are returned, not even those
    already fetched, and it issues no further request; in a run of [main]
    no request at all follows the failed one, so the Forwarder is not
    invoked for that day (nor for a later one). *)
Theorem failed_fetch_aborts_run (w : World) :
  (∀ tok date s res s' t1 r t2,
     fetch_power_usage w tok date s = (res, s') →
     events s' = events s ++ t1 ++ Call r :: t2 →
     is_fetch r →
     failed (server w (requests_of (events s ++ t1)) r) →
     (∃ e, res = Raise e) ∧ requests_of t2 = []) ∧
  (∀ D s res s' t1 r t2,
     main w D s = (res, s') →
     events s' = events s ++ t1 ++ Call r :: t2 →
     is_fetch r →
     failed (server w (requests_of (events s ++ t1)) r) →
     requests_of t2 = []).
Proof.
  split.
  - intros tok date s res s' t1 r t2 Hrun Hev Hr Hf.
    destruct (safe_fetch_power_usage w (events s) tok date s res s'
                (clean_start w _) Hrun) as [Hc|[? Hq]].
    + destruct (Hc t1 r t2); [done|]. by destruct r.
    + split; [done|]. apply (Hq t1 r t2); [done|]. by destruct r.
  - intros D s res s' t1 r t2 Hrun Hev Hr Hf.
    apply (main_quiet w (events s) D s res s' (clean_start w _) Hrun t1 r t2); [done|].
    by destruct r.
Qed.

(** ** The Meter Enumerator *)

(** C5.  Whatever the upstream list, duplicates included, the identifiers
    the Meter Enumerator produces are pairwise different as set members
    (each identifier at most once), and they are the first occurrences of
    the identifiers of the list, in the order of the list: a subsequence of
    it that loses no identifier. *)
Theorem enumerated_ids_unique_first_seen (w : World) tok s ids s' :
  meter_enumerator w tok s = (Ok ids, s') →
  ∃ r v meters,
    server w (requests_of (events s)) (GetMyMeters tok) = CallReturns r ∧
    body r = Some v ∧ meters_object v meters ∧
    NoDup (hash_key <$> ids) ∧
    ids = first_occurrences (meter_ids_of meters) ∧
    ids `sublist_of` meter_ids_of meters ∧
    ∀ x, x ∈ meter_ids_of meters → ∃ y, y ∈ ids ∧ hash_key y = hash_key x.
Proof.
  intros (_ & r & v & Hs & _ & Hb & Hp)%meter_enumerator_Ok.
  apply parse_meters_Ok in Hp as (meters & Hm & ->).
  exists r, v, meters. repeat split; try done.
  - apply first_occurrences_NoDup.
  - apply first_occurrences_sublist.
  - apply first_occurrences_covers.
Qed.

(** C9.  When the answer to the meter-list request is an object with a
    "meters" list, the outcome of the enumeration is that of the list with
    every element removed that is not an object or has no "id" key: such
    elements yield no identifier and no failure.  If the identifiers of
    the remaining records are hashable the enumeration succeeds. *)
Theorem malformed_meter_elements_dropped (w : World) tok s r d meters :
  server w (requests_of (events s)) (GetMyMeters tok) = CallReturns r →
  ¬ http_error r →
  body r = Some (JDict d) →
  dict_lookup "meters" d = Some (JList meters) →
  let records := filter (λ m, bears_id m = true) meters in
  let s1 := State (events s ++ [Call (GetMyMeters tok)]) (clock_reads s) in
  parse_meters (JDict d) = dedup_loop (meter_ids_of records) ∅ [] ∧
  (Forall (λ x, is_Some (hash_key x)) (meter_ids_of records) →
   meter_enumerator w tok s = (Ok (first_occurrences (meter_ids_of records)), s1)) ∧
  (records = [] → meter_enumerator w tok s = (Ok [], s1)).
Proof.
  intros Hs Herr Hb Hd records s1.
  assert (Hparse : parse_meters (JDict d) = dedup_loop (meter_ids_of records) ∅ []).
  { unfold parse_meters. rewrite Hd. unfold records. by rewrite meter_ids_of_filter. }
  assert (Hrun : ∀ ids, dedup_loop (meter_ids_of records) ∅ [] = Ok ids →
                        meter_enumerator w tok s = (Ok ids, s1)).
  { intros ids Hids. rewrite meter_enumerator_run, Hs. cbv zeta.
    apply raise_for_status_Ok in Herr. rewrite Herr.
    unfold response_json. rewrite Hb. simpl. fold (parse_meters (JDict d)).
    by rewrite Hparse, Hids. }
  split; [done|]. split.
  - intros [ids Hids]%(dedup_loop_hashable _ ∅ []).
    rewrite (Hrun ids Hids). do 2 f_equal.
    apply dedup_loop_first_occurrences in Hids. by rewrite Hids, filter_fresh_empty.
  - intros Hnil. apply Hrun. by rewrite Hnil.
Qed.

(** C1, as the code has it.  The Meter Enumerator accepts an answer only
    if it is an object containing a "meters" list; an answer that is not
    makes [fetch_power_usage] raise with the meter-list request as its
    last request, so the Reading Fetcher issues none, and in a run of
    [main] no request of any kind follows it.  Elements of the list that
    are not records bearing an identifier are not part of the test. *)
Theorem meter_list_shape_enforced (w : World) :
  (∀ tok s ids s',
     meter_enumerator w tok s = (Ok ids, s') →
     ∃ r v meters,
       server w (requests_of (events s)) (GetMyMeters tok) = CallReturns r ∧
       body r = Some v ∧ meters_object v meters) ∧
  (∀ tok date s res s' t1 tok' t2,
     fetch_power_usage w tok date s = (res, s') →
     events s' = events s ++ t1 ++ Call (GetMyMeters tok') :: t2 →
     rejected (GetMyMeters tok')
       (server w (requests_of (events s ++ t1)) (GetMyMeters tok')) →
     (∃ e, res = Raise e) ∧ requests_of t2 = []) ∧
  (∀ D s res s' t1 tok' t2,
     main w D s = (res, s') →
     events s' = events s ++ t1 ++ Call (GetMyMeters tok') :: t2 →
     rejected (GetMyMeters tok')
       (server w (requests_of (events s ++ t1)) (GetMyMeters tok')) →
     requests_of t2 = []).
Proof.
  split; [|split].
  - intros tok s ids s' (_ & r & v & Hs & _ & Hb & Hp)%meter_enumerator_Ok.
    apply parse_meters_Ok in Hp as (meters & Hm & _). by exists r, v, meters.
  - intros tok date s res s' t1 tok' t2 Hrun Hev Hrej.
    destruct (safe_fetch_power_usage w (events s) tok date s res s'
                (clean_start w _) Hrun) as [Hc|[? Hq]].
    + by destruct (Hc t1 (GetMyMeters tok') t2).
    + split; [done|]. by apply (Hq t1 (GetMyMeters tok') t2).
  - intros D s res s' t1 tok' t2 Hrun Hev Hrej.
    by apply (main_quiet w (events s) D s res s' (clean_start w _) Hrun
                t1 (GetMyMeters tok') t2).
Qed.

(** ** The other components, as functions of the servers' answers *)

Lemma minus_days_Ok now d y :
  minus_days now d = Ok y → y = now - d ∧ 1 ≤ y ≤ 3652059.
Proof.
  unfold minus_days. destruct (_ <? _); [done|].
  destruct (_ && _) eqn:H; [|done]. intros [= <-]. lia.
Qed.

Lemma collect_subject_ids_records (subjects : list json) :
  Forall (λ x, ∃ d, x = JDict d) subjects →
  collect_subject_ids subjects = Ok (meter_ids_of subjects).
Proof.
  induction 1 as [|x l [d ->] _ IH]; [done|].
  cbn [collect_subject_ids meter_ids_of py_contains]. simpl.
  destruct (dict_lookup "id" d) as [v|]; simpl; [|done].
  by rewrite IH.
Qed.

Section Runs.
Context (w : World).

Lemma forward_to_blockbax_run data s :
  forward_to_blockbax w data s =
  let s1 := State (events s ++ [Call (PostToBlockbax data)]) (clock_reads s) in
  match server w (requests_of (events s)) (PostToBlockbax data) with
  | CallRaises => (Raise RequestException, s1)
  | CallReturns r => (raise_for_status r, s1)
  end.
Proof.
  unfold forward_to_blockbax. rewrite bind_run. unfold http.
  by destruct (server w _ _).
Qed.

Lemma forward_to_blockbax_Ok data s u s' :
  forward_to_blockbax w data s = (Ok u, s') →
  s' = State (events s ++ [Call (PostToBlockbax data)]) (clock_reads s).
Proof.
  rewrite forward_to_blockbax_run. cbv zeta.
  destruct (server w _ _); [done|]. by intros [= _ <-].
Qed.

Lemma get_access_token_Ok s tok s' :
  get_access_token w s = (Ok tok, s') →
  s' = State (events s ++ [Call PostToken]) (clock_reads s) ∧
  grants (server w (requests_of (events s)) PostToken) tok.
Proof.
  unfold get_access_token.
  intros (r & s1 & [-> Hs]%http_Ok & H)%bind_Ok.
  apply reraise_inv in H
    as [(a & [= <-] & H)|(? & ? & _ & [(_ & [=] & _)|(_ & [=] & _)])].
  apply bind_Ok in H as ([] & ? & [Hst ->]%lift_inv & H).
  apply bind_Ok in H as (v & ? & [Hv ->]%lift_inv & H).
  apply bind_Ok in H as (t & ? & [Ht ->]%lift_inv & H).
  destruct (truthy t) eqn:Htruthy; [|done]. injection H as <- <-.
  split; [done|]. symmetry in Hst, Hv, Ht.
  apply raise_for_status_Ok in Hst. unfold response_json in Hv.
  destruct (body r) as [v'|] eqn:Hb; [|done]. injection Hv as ->.
  destruct v; try done. cbn [py_get] in Ht.
  destruct (dict_lookup "token" d) as [x|] eqn:Hd; injection Ht as <-; [|done].
  by exists r, d.
Qed.

Lemma fetch_power_usage_Ok tok date_str s data s' :
  fetch_power_usage w tok date_str s = (Ok data, s') →
  ∃ ids,
    let date := match date_str with
                | Some d => d
                | None => Ymd (clock w (clock_reads s) - 1)
                end in
    requests_of (events s') =
      requests_of (events s) ++
        GetMyMeters tok :: ((λ id, GetDataRaw tok id date) <$> ids) ∧
    length data = length ids ∧
    clock_reads s' = match date_str with
                     | Some _ => clock_reads s
                     | None => S (clock_reads s)
                     end.
Proof.
  unfold fetch_power_usage.
  intros (date & s1 & Hdate & H)%bind_Ok.
  apply bind_Ok in H as (ids & s2 & [-> _]%meter_enumerator_Ok & H).
  apply reading_fetcher_Ok in H as (-> & new & -> & Hlen).
  exists ids. cbv zeta.
  assert (Hd : date = match date_str with
                      | Some d => d
                      | None => Ymd (clock w (clock_reads s) - 1)
                      end ∧
               events s1 = events s ∧
               clock_reads s1 = match date_str with
                                | Some _ => clock_reads s
                                | None => S (clock_reads s)
                                end).
  { destruct date_str as [d|].
    - by injection Hdate as <- <-.
    - apply bind_Ok in Hdate as (now & ? & [[= <-] ->]%utcnow_inv & Hdate).
      apply bind_Ok in Hdate as (y & ? & [Hy ->]%lift_inv & Hdate).
      injection Hdate as <- <-. symmetry in Hy.
      apply minus_days_Ok in Hy as [-> _]. done. }
  destruct Hd as (<- & He & Hc). simpl. rewrite He, Hc.
  rewrite requests_of_app, requests_of_snoc_call, requests_of_calls, <-app_assoc.
  done.
Qed.

Lemma check_run_yesterday_run s :
  check_run_yesterday w s =
  let s1 := State (events s ++ [Call GetSubjects]) (clock_reads s) in
  match server w (requests_of (events s)) GetSubjects with
  | CallRaises => (Raise RequestException, s1)
  | CallReturns resp =>
      match raise_for_status resp ≫= λ _,
            (response_json resp ≫= λ v, py_get v "result" (JList [])) ≫= λ subjects,
            py_iter subjects ≫= collect_subject_ids with
      | Raise e => (Raise e, s1)
      | Ok ids =>
          match minus_days (clock w (clock_reads s)) 1 with
          | Raise e => (Raise e, State (events s1) (S (clock_reads s)))
          | Ok y =>
              let s3 := State (events s1 ++ [Call (PostMeasurements ids y)])
                              (S (clock_reads s)) in
              match server w (requests_of (events s1)) (PostMeasurements ids y) with
              | CallRaises => (Raise RequestException, s3)
              | CallReturns resp2 =>
                  match raise_for_status resp2 ≫= λ _,
                        response_json resp2 ≫= λ v, py_get v "result" JNull with
                  | Raise e => (Raise e, s3)
                  | Ok r => (Ok (truthy r), s3)
                  end
              end
          end
      end
  end.
Proof.
  unfold check_run_yesterday. rewrite bind_run. unfold http at 1.
  destruct (server w _ GetSubjects) as [|resp]; [done|].
  rewrite bind_run. unfold lift at 1.
  destruct (raise_for_status resp) as [[]|]; [|done].
  rewrite result_bind_Ok, bind_run. unfold lift at 1.
  destruct (response_json resp ≫= _) as [subjects|]; [|done].
  rewrite result_bind_Ok, bind_run. unfold lift at 1.
  change (λ items, collect_subject_ids items) with collect_subject_ids.
  destruct (py_iter subjects ≫= _) as [ids|]; [|done].
  rewrite bind_run. unfold utcnow at 1.
  rewrite bind_run. unfold lift at 1.
  destruct (minus_days _ 1) as [y|]; [|done].
  rewrite bind_run. unfold http at 1. cbv zeta. cbn [events clock_reads].
  destruct (server w _ (PostMeasurements ids y)) as [|resp2]; [done|].
  rewrite bind_run. unfold lift at 1.
  destruct (raise_for_status resp2) as [[]|]; [|done].
  rewrite result_bind_Ok, bind_run. unfold lift at 1.
  by destruct (response_json resp2 ≫= _).
Qed.

Lemma check_run_yesterday_Ok s b s' :
  check_run_yesterday w s = (Ok b, s') →
  ∃ ids y r2 v res,
    s' = State (events s ++ [Call GetSubjects; Call (PostMeasurements ids y)])
               (S (clock_reads s)) ∧
    y = clock w (clock_reads s) - 1 ∧
    server w (requests_of (events s) ++ [GetSubjects]) (PostMeasurements ids y)
      = CallReturns r2 ∧
    ¬ http_error r2 ∧ body r2 = Some v ∧
    py_get v "result" JNull = Ok res ∧ b = truthy res.
Proof.
  rewrite check_run_yesterday_run. cbv zeta.
  destruct (server w _ GetSubjects) as [|resp]; [done|].
  destruct (raise_for_status resp ≫= _) as [ids|]; [|done].
  destruct (minus_days _ 1) as [y|] eqn:Hy; [|done].
  cbn [events clock_reads]. rewrite requests_of_snoc_call.
  destruct (server w _ (PostMeasurements ids y)) as [|r2] eqn:Hs2; [done|].
  destruct (raise_for_status r2) as [[]|] eqn:Hst; [|done].
  rewrite result_bind_Ok. unfold response_json.
  destruct (body r2) as [v|] eqn:Hb; [|done]. rewrite result_bind_Ok.
  destruct (py_get v "result" JNull) as [res|] eqn:Hres; [|done].
  intros [= <- <-]. exists ids, y, r2, v, res.
  rewrite <-app_assoc. apply minus_days_Ok in Hy as [-> _].
  by rewrite <-raise_for_status_Ok.
Qed.

End Runs.

(** ** The Reading Fetcher *)

(** C6.  When each of the N per-meter requests succeeds, the Reading
    Fetcher issues exactly those N requests, one per identifier in the
    order of the identifiers, and returns N payloads, the k-th being the
    decoded body of the answer to the k-th identifier.  (The identifiers
    need not even be distinct.) *)
Theorem reading_fetcher_one_call_per_meter (w : World) tok date ids s :
  let fetch id := GetDataRaw tok id date in
  (∀ k id, ids !! k = Some id →
     ¬ failed (server w (requests_of (events s) ++ (fetch <$> take k ids)) (fetch id))) →
  ∃ data s',
    reading_fetcher w tok date ids [] s = (Ok data, s') ∧
    length data = length ids ∧
    requests_of (events s') = requests_of (events s) ++ (fetch <$> ids) ∧
    ∀ k id, ids !! k = Some id →
      ∃ r, server w (requests_of (events s) ++ (fetch <$> take k ids)) (fetch id)
             = CallReturns r ∧
           body r = data !! k.
Proof.
  intros fetch Hall.
  destruct (reading_fetcher_total w tok date ids [] s Hall) as (data & s' & Hrun & Hdata).
  exists data, s'. split; [done|].
  apply reading_fetcher_Ok in Hrun as (-> & new & [= ->] & Hlen).
  split; [done|]. split.
  - cbn [events]. by rewrite requests_of_app, requests_of_calls.
  - intros k id Hk. destruct (Hdata k id Hk) as (r & v & ? & _ & ? & ?).
    exists r. split; [done|congruence].
Qed.

(** ** The Idempotency Checker *)

(** C2.  Whenever the checker returns, it has issued its two calls and
    the boolean it returns is the truth value of the "result" of the
    measurement search: for a result list, true if and only if the list is
    not empty.  And when both calls are answered successfully -- the
    subject listing by an object whose "result" (if present) lists subject
    records, the measurement search by an object with a "result" list --
    the checker does return: it issues exactly these two calls, the second
    one with the identifiers of the subjects, which is the empty list when
    there is no subject. *)
Theorem idempotency_check_result (w : World) s :
  (∀ b s',
     check_run_yesterday w s = (Ok b, s') →
     ∃ ids y r2 v res,
       s' = State (events s ++ [Call GetSubjects; Call (PostMeasurements ids y)])
                  (S (clock_reads s)) ∧
       server w (requests_of (events s) ++ [GetSubjects]) (PostMeasurements ids y)
         = CallReturns r2 ∧
       body r2 = Some v ∧ py_get v "result" JNull = Ok res ∧
       b = truthy res ∧
       ∀ found, res = JList found → (b = true ↔ found ≠ [])) ∧
  (∀ r1 d1 subjects y r2 d2 found,
     server w (requests_of (events s)) GetSubjects = CallReturns r1 →
     ¬ http_error r1 →
     body r1 = Some (JDict d1) →
     match dict_lookup "result" d1 with Some x => x | None => JList [] end
       = JList subjects →
     Forall (λ x, ∃ d, x = JDict d) subjects →
     minus_days (clock w (clock_reads s)) 1 = Ok y →
     server w (requests_of (events s) ++ [GetSubjects])
       (PostMeasurements (meter_ids_of subjects) y) = CallReturns r2 →
     ¬ http_error r2 →
     body r2 = Some (JDict d2) →
     dict_lookup "result" d2 = Some (JList found) →
     ∃ b,
       check_run_yesterday w s =
         (Ok b,
          State (events s ++ [Call GetSubjects;
                              Call (PostMeasurements (meter_ids_of subjects) y)])
                (S (clock_reads s))) ∧
       (b = true ↔ found ≠ []) ∧
       (subjects = [] → meter_ids_of subjects = [])).
Proof.
  split.
  - intros b s' (ids & y & r2 & v & res & -> & _ & Hs & _ & Hb & Hres & ->)
      %check_run_yesterday_Ok.
    exists ids, y, r2, v, res. repeat split; try done.
    + by intros ?; subst; destruct found.
    + by intros ?; subst; destruct found.
  - intros r1 d1 subjects y r2 d2 found Hs1 He1 Hb1 Hres1 Hsub Hy Hs2 He2 Hb2 Hres2.
    exists (truthy (JList found)). split; [|split].
    + rewrite check_run_yesterday_run, Hs1. cbv zeta.
      apply raise_for_status_Ok in He1, He2. rewrite He1, result_bind_Ok.
      unfold response_json at 1. rewrite Hb1, result_bind_Ok.
      cbn [py_get]. rewrite Hres1, result_bind_Ok.
      cbn [py_iter]. rewrite result_bind_Ok.
      rewrite (collect_subject_ids_records _ Hsub), Hy.
      cbn [events clock_reads]. rewrite requests_of_snoc_call, Hs2.
      rewrite He2, result_bind_Ok. unfold response_json. rewrite Hb2, result_bind_Ok.
      cbn [py_get]. rewrite Hres2. by rewrite <-app_assoc.
    + by destruct found.
    + by intros ->.
Qed.

(** ** The Orchestrator *)

(** C7.  When the idempotency check returns true the run consists of the
    checker's two calls and one printed line, whatever the backfill
    day-count: no token is requested, no meter list, no reading, nothing
    is forwarded, and [main] returns without having raised. *)
Theorem skipped_when_already_ingested (w : World) (D : Z) s s1 :
  check_run_yesterday w s = (Ok true, s1) →
  main_body w D s = (Ok (), State (events s1 ++ [Print AlreadySubmitted]) (clock_reads s1)) ∧
  main w D s = (Ok (), State (events s1 ++ [Print AlreadySubmitted]) (clock_reads s1)) ∧
  ∃ ids y,
    requests_of (events s1 ++ [Print AlreadySubmitted]) =
      requests_of (events s) ++ [GetSubjects; PostMeasurements ids y].
Proof.
  intros Hc.
  assert (Hb : main_body w D s =
    (Ok (), State (events s1 ++ [Print AlreadySubmitted]) (clock_reads s1))).
  { unfold main_body. by rewrite bind_run, Hc. }
  split; [done|]. split.
  - unfold main. by rewrite try_except_run, Hb.
  - apply check_run_yesterday_Ok in Hc as (ids & y & _ & _ & _ & -> & _).
    exists ids, y. cbn [events].
    by rewrite requests_of_snoc_print, requests_of_app.
Qed.


(** C8, at the input on which it fails.  In [garbled] the meter list is
    answered with status 200 and a JSON string that holds a lone
    surrogate.  Line 86 raises the [ValueError] with that text in it, the
    handler of [main] catches it, and its [print] (line 181) raises
    [UnicodeEncodeError]: no error line is printed, the error leaves
    [main], and the process ends with status 1. *)
Theorem main_raises_on_unprintable_error :
  let s1 := State [Call GetSubjects; Call (PostMeasurements [JStr "s1"] 739923);
                   Print NoExistingMeasurements; Print Authenticating;
                   Call PostToken; Print FetchingYesterday;
                   Call (GetMyMeters T1); Print (FailedToParseMeters 200)] 2 in
  main_body garbled 0 initial
    = (Raise (UnexpectedMetersFormat (JStr lone_surrogate)), s1) ∧
  main garbled 0 initial = (Raise UnicodeEncodeError, s1) ∧
  exit_status (main garbled 0 initial).1 = 1.
Proof. vm_compute. done. Qed.

Lemma range_down_days today D :
  (λ k, today - k) <$> range_down D = backfill_days_of today D.
Proof.
  unfold range_down, backfill_days_of.
  rewrite <-list_fmap_compose. apply list_fmap_ext. intros _ i _. simpl. lia.
Qed.


Lemma backfill_days_of_lookup today D (i : nat) :
  Z.of_nat i < D → backfill_days_of today D !! i = Some (today - D + Z.of_nat i).
Proof.
  intros Hi. unfold backfill_days_of.
  rewrite list_lookup_fmap, lookup_seq_lt by lia. done.
Qed.

Section Cycles.
Context (w : World) (today : Z).
Hypothesis clock_fixed : ∀ n, clock w n = today.

Lemma cycle_Ok tok date_str s data s1 s' :
  fetch_power_usage w tok date_str s = (Ok data, s1) →
  requests_of (events s') = requests_of (events s1) ++ [PostToBlockbax data] →
  ∃ ids,
    length data = length ids ∧
    requests_of (events s') =
      requests_of (events s) ++
        cycle_requests tok
          (match date_str with Some d => d | None => Ymd (today - 1) end)
          ids data.
Proof.
  intros (ids & Hreq & Hlen & _)%fetch_power_usage_Ok Hfw. cbv zeta in Hreq.
  exists ids. split; [done|]. rewrite Hfw, Hreq. unfold cycle_requests.
  rewrite clock_fixed. rewrite <-app_assoc. done.
Qed.

Lemma backfill_day_Ok tok days_ago s s' :
  backfill_day w tok days_ago s = (Ok (), s') →
  ∃ ids data,
    length data = length ids ∧
    requests_of (events s') =
      requests_of (events s) ++ cycle_requests tok (Ymd (today - days_ago)) ids data.
Proof.
  unfold backfill_day.
  intros (now & ? & [[= ->] ->]%utcnow_inv & H)%bind_Ok.
  apply bind_Ok in H as (day & ? & [Hday ->]%lift_inv & H).
  symmetry in Hday. apply minus_days_Ok in Hday as [-> _].
  apply bind_Ok in H as (_ & ? & [_ ->]%print_inv & H).
  apply bind_Ok in H as (data & s1 & Hfetch & H).
  apply bind_Ok in H as (_ & ? & [_ ->]%print_inv & H).
  apply forward_to_blockbax_Ok in H as ->.
  destruct (cycle_Ok tok _ _ data s1
              (State ((events s1 ++ [Print (SendingFor (Ymd (clock w (clock_reads s) - days_ago)))])
                        ++ [Call (PostToBlockbax data)]) (clock_reads s1)) Hfetch)
    as (ids & Hlen & Hreq).
  { cbn [events]. by rewrite requests_of_snoc_call, requests_of_snoc_print. }
  exists ids, data. split; [done|]. cbn [events] in *.
  rewrite Hreq. cbn [events]. rewrite requests_of_snoc_print, clock_fixed. done.
Qed.

(** A day before 0001-01-01 is no [datetime]: the iteration raises before
    it prints or requests anything. *)
Lemma backfill_day_before_calendar tok days_ago s :
  today - days_ago < 1 →
  backfill_day w tok days_ago s
    = (Raise OverflowError, State (events s) (S (clock_reads s))).
Proof.
  intros Hlt. unfold backfill_day. rewrite bind_run. unfold utcnow at 1.
  rewrite bind_run. unfold lift at 1. rewrite clock_fixed.
  unfold minus_days. destruct (_ <? _); [done|].
  assert (Hr : (1 <=? today - days_ago) && (today - days_ago <=? 3652059) = false)
    by (apply andb_false_iff; left; lia).
  by rewrite Hr.
Qed.

Lemma backfill_loop_Ok tok (l : list Z) :
  ∀ s s',
    for_each l (backfill_day w tok) s = (Ok (), s') →
    ∃ cycles : list (list json * list json),
      length cycles = length l ∧
      Forall (λ c, length c.2 = length c.1) cycles ∧
      requests_of (events s') =
        requests_of (events s) ++
          concat (zip_with (λ day c, cycle_requests tok (Ymd day) c.1 c.2)
                    ((λ k, today - k) <$> l) cycles).
Proof.
  induction l as [|k l IH]; intros s s'.
  - intros [= <-]. exists []. by rewrite app_nil_r.
  - cbn [for_each]. intros ([] & s1 & Hday & Hrest)%bind_Ok.
    apply backfill_day_Ok in Hday as (ids & data & Hlen & Hreq).
    apply IH in Hrest as (cycles & Hn & Hall & Hreqs).
    exists ((ids, data) :: cycles). split; [simpl; by rewrite Hn|].
    split; [by constructor|].
    rewrite Hreqs, Hreq, <-app_assoc. done.
Qed.


End Cycles.

(** C3, at the input on which it fails.  Line 167 reads the clock anew in
    every iteration.  In [midnight] a backfill of 2 days starts on
    2026-11-04 (ordinal 739924) and the UTC day changes after the first
    cycle: the run completes without an error, and its two cycles are for
    2026-11-02 and for 2026-11-04.  These are not the days [today - 2]
    and [today - 1], whether [today] is the day on which the run starts
    or the day on which it ends: the readings of 2026-11-03 are never
    requested. *)
Theorem backfill_across_midnight_skips_a_day :
  let A := JStr "A" in
  let B := JStr "B" in
  let data := [JDict [("m", A)]; JDict [("m", B)]] in
  (main midnight 2 initial).1 = Ok () ∧
  (main_body midnight 2 initial).1 = Ok () ∧
  requests_of (events (main midnight 2 initial).2) =
    [GetSubjects; PostMeasurements [JStr "s1"] 739923; PostToken]
    ++ cycle_requests T1 (Ymd 739922) [A; B] data
    ++ cycle_requests T1 (Ymd 739924) [A; B] data ∧
  clock midnight 0 = 739924 ∧
  backfill_days_of 739924 2 = [739922; 739923] ∧
  clock midnight 2 = 739925 ∧
  backfill_days_of 739925 2 = [739923; 739924].
Proof. vm_compute. done. Qed.



(** ** The scenarios, run *)

(** The first end-to-end scenario of the specification: nothing ingested,
    token "T1", meters A, A, B; readings are fetched for A and B only and
    forwarded once, in that order. *)
Example end_to_end_scenario :
  requests_of (events (main healthy 0 initial).2) =
    [GetSubjects; PostMeasurements [JStr "s1"] 739923; PostToken;
     GetMyMeters T1;
     GetDataRaw T1 (JStr "A") (Ymd 739923);
     GetDataRaw T1 (JStr "B") (Ymd 739923);
     PostToBlockbax [JDict [("m", JStr "A")]; JDict [("m", JStr "B")]]].
Proof. vm_compute. reflexivity. Qed.

Lemma enumerated_ids_unique_first_seen_witness :
  meter_enumerator healthy T1 initial
    = (Ok [JStr "A"; JStr "B"], State [Call (GetMyMeters T1)] 0) ∧
  NoDup (hash_key <$> [JStr "A"; JStr "B"]) ∧
  [JStr "A"; JStr "B"] = first_occurrences [JStr "A"; JStr "A"; JStr "B"].
Proof.
  assert (H : meter_enumerator healthy T1 initial
              = (Ok [JStr "A"; JStr "B"], State [Call (GetMyMeters T1)] 0))
    by (vm_compute; reflexivity).
  split; [exact H|].
  destruct (enumerated_ids_unique_first_seen healthy T1 initial _ _ H)
    as (r & v & meters & Hs & Hb & (d & Hv & Hd) & Hnd & Hfo & _).
  split; [exact Hnd|].
  injection Hs as <-. injection Hb as <-. injection Hv as <-.
  injection Hd as <-. exact Hfo.
Defined.

Lemma malformed_meter_elements_dropped_witness :
  meter_enumerator sloppy T1 initial
    = (Ok [JStr "A"], State [Call (GetMyMeters T1)] 0).
Proof.
  apply (malformed_meter_elements_dropped sloppy T1 initial
           (Response 200 (Some (JDict [("meters",
              JList [JInt 5; JDict [("name", JStr "x")]; meter "A"])])))
           [("meters", JList [JInt 5; JDict [("name", JStr "x")]; meter "A"])]
           [JInt 5; JDict [("name", JStr "x")]; meter "A"]).
  - reflexivity.
  - unfold http_error. simpl. lia.
  - reflexivity.
  - reflexivity.
  - vm_compute. repeat constructor. by eexists.
Defined.

(** C1 as the specification states it fails: the answer of [sloppy] holds
    a number and a record without identifier, so it is not a list of meter
    records each bearing an identifier; yet the Meter Enumerator accepts
    it, and the Reading Fetcher is invoked with the one identifier
    found. *)
Lemma strict_meter_shape_counterexample :
  server sloppy [] (GetMyMeters T1)
    = ok_json (JDict [("meters",
        JList [JInt 5; JDict [("name", JStr "x")]; meter "A"])]) ∧
  ¬ strict_meters_shape (JDict [("meters",
        JList [JInt 5; JDict [("name", JStr "x")]; meter "A"])]) ∧
  meter_enumerator sloppy T1 initial
    = (Ok [JStr "A"], State [Call (GetMyMeters T1)] 0) ∧
  fetch_power_usage sloppy T1 None initial
    = (Ok [JDict [("m", JStr "A")]],
       State [Call (GetMyMeters T1);
              Call (GetDataRaw T1 (JStr "A") (Ymd 739923))] 1).
Proof.
  split; [reflexivity|]. split; [|split; vm_compute; reflexivity].
  intros (meters & (d & Hv & Hd) & Hall).
  injection Hv as <-. injection Hd as <-.
  apply Forall_cons in Hall as [Hfive _]. discriminate Hfive.
Qed.

Lemma meter_list_shape_enforced_witness :
  fetch_power_usage shapeless T1 None initial
    = (Raise (UnexpectedMetersFormat (JList [meter "A"])),
       State [Call (GetMyMeters T1); Print (FailedToParseMeters 200)] 1) ∧
  requests_of [Print (FailedToParseMeters 200)] = [].
Proof.
  assert (H : fetch_power_usage shapeless T1 None initial
    = (Raise (UnexpectedMetersFormat (JList [meter "A"])),
       State [Call (GetMyMeters T1); Print (FailedToParseMeters 200)] 1))
    by (vm_compute; reflexivity).
  split; [exact H|].
  destruct (meter_list_shape_enforced shapeless) as (_ & Hfetch & _).
  apply (Hfetch T1 None initial _ _ [] T1 [Print (FailedToParseMeters 200)] H).
  - reflexivity.
  - intros (resp & v & meters & Hs & Hb & d & Hv & _).
    injection Hs as <-. injection Hb as <-. discriminate Hv.
Defined.

Lemma idempotency_check_result_witness :
  ∃ b,
    check_run_yesterday no_subjects initial =
      (Ok b, State [Call GetSubjects; Call (PostMeasurements [] 739923)] 1) ∧
    (b = true ↔ @nil json ≠ []) ∧
    (@nil json = [] → meter_ids_of [] = []).
Proof.
  destruct (idempotency_check_result no_subjects initial) as [_ Hcheck].
  apply (Hcheck
           (Response 200 (Some (JDict [("result", JList [])])))
           [("result", JList [])] [] 739923
           (Response 200 (Some (JDict [("result", JList [])])))
           [("result", JList [])] []).
  - reflexivity.
  - unfold http_error. simpl. lia.
  - reflexivity.
  - reflexivity.
  - constructor.
  - reflexivity.
  - reflexivity.
  - unfold http_error. simpl. lia.
  - reflexivity.
  - reflexivity.
Defined.


Lemma failed_fetch_aborts_run_witness :
  let t1 := [Call GetSubjects; Call (PostMeasurements [JStr "s1"] 739923);
             Print NoExistingMeasurements; Print Authenticating;
             Call PostToken; Print FetchingYesterday;
             Call (GetMyMeters T1);
             Call (GetDataRaw T1 (JStr "A") (Ymd 739923))] in
  let t2 := [Print (FailedToFetch (JStr "B") 500);
             Print (ErrorOccurred (HTTPError 500))] in
  main flaky 0 initial
    = (Ok (), State (t1 ++ Call (GetDataRaw T1 (JStr "B") (Ymd 739923)) :: t2) 2) ∧
  failed (server flaky (requests_of t1) (GetDataRaw T1 (JStr "B") (Ymd 739923))) ∧
  requests_of t2 = [].
Proof.
  intros t1 t2.
  assert (H : main flaky 0 initial
    = (Ok (), State (t1 ++ Call (GetDataRaw T1 (JStr "B") (Ymd 739923)) :: t2) 2))
    by (vm_compute; reflexivity).
  assert (Hf : failed (server flaky (requests_of t1)
                         (GetDataRaw T1 (JStr "B") (Ymd 739923))))
    by (left; unfold http_error; simpl; lia).
  split; [exact H|]. split; [exact Hf|].
  destruct (failed_fetch_aborts_run flaky) as [_ Hmain].
  apply (Hmain 0 initial _ _ t1 (GetDataRaw T1 (JStr "B") (Ymd 739923)) t2 H).
  - reflexivity.
  - exact I.
  - exact Hf.
Defined.

Lemma reading_fetcher_one_call_per_meter_witness :
  ∃ data s',
    reading_fetcher healthy T1 (Ymd 739923) [JStr "A"; JStr "B"] [] initial
      = (Ok data, s') ∧
    length data = 2%nat ∧
    requests_of (events s') =
      [GetDataRaw T1 (JStr "A") (Ymd 739923); GetDataRaw T1 (JStr "B") (Ymd 739923)].
Proof.
  destruct (reading_fetcher_one_call_per_meter healthy T1 (Ymd 739923)
              [JStr "A"; JStr "B"] initial) as (data & s' & Hrun & Hlen & Hreq & _).
  - intros k id _. simpl. unfold http_error. simpl. intros [?|?]; [lia|done].
  - exists data, s'. split; [exact Hrun|]. split; [exact Hlen|exact Hreq].
Defined.

Lemma skipped_when_already_ingested_witness :
  main already_ingested 2 initial
    = (Ok (), State [Call GetSubjects; Call (PostMeasurements [JStr "s1"] 739923);
                     Print AlreadySubmitted] 1).
Proof.
  apply (skipped_when_already_ingested already_ingested 2 initial
           (State [Call GetSubjects; Call (PostMeasurements [JStr "s1"] 739923)] 1)).
  vm_compute. reflexivity.
Defined.


(** * Further properties of the code *)

(** ** The Authenticator *)

Lemma get_access_token_run (w : World) s :
  get_access_token w s =
  let s1 := State (events s ++ [Call PostToken]) (clock_reads s) in
  match server w (requests_of (events s)) PostToken with
  | CallRaises => (Raise RequestException, s1)
  | CallReturns r =>
      match raise_for_status r ≫= λ _,
            response_json r ≫= λ token_data,
            py_get token_data "token" JNull ≫= λ token,
            if truthy token then Ok token else Raise NoTokenFound with
      | Ok token => (Ok token, s1)
      | Raise e =>
          (Raise e,
           State (events s1 ++ [Print (FailedToAuthenticate (status_code r))])
                 (clock_reads s))
      end
  end.
Proof.
  unfold get_access_token. rewrite bind_run. unfold http.
  destruct (server w _ _) as [|r]; [done|].
  rewrite try_except_run, bind_run. unfold lift at 1.
  destruct (raise_for_status r) as [[]|]; [|done].
  rewrite result_bind_Ok, bind_run. unfold lift at 1.
  destruct (response_json r) as [v|]; [|done].
  rewrite result_bind_Ok, bind_run. unfold lift at 1.
  destruct (py_get v "token" JNull) as [t|]; [|done].
  rewrite result_bind_Ok. by destruct (truthy t).
Qed.

(** X1.  [get_access_token] returns a token exactly when the token
    request is answered, without an error status, by a JSON object whose
    "token" is truthy; it then has issued that one request and printed
    nothing. *)
Theorem token_returned_iff_granted (w : World) s tok s' :
  get_access_token w s = (Ok tok, s') ↔
  grants (server w (requests_of (events s)) PostToken) tok ∧
  s' = State (events s ++ [Call PostToken]) (clock_reads s).
Proof.
  split.
  - intros [-> ?]%get_access_token_Ok. done.
  - intros [(r & d & Hs & Herr & Hb & Hd & Ht) ->].
    rewrite get_access_token_run, Hs. cbv zeta.
    apply raise_for_status_Ok in Herr. rewrite Herr, result_bind_Ok.
    unfold response_json. rewrite Hb, result_bind_Ok.
    cbn [py_get]. rewrite Hd, result_bind_Ok, Ht. done.
Qed.

(** X2.  An answer to the token request that is a JSON object without a
    "token", or with a falsy one (null, "", 0, false, an empty list or
    object), makes [get_access_token] raise the "No token found" error,
    after printing the failure line with the status of the answer, which
    is not an error status. *)
Theorem missing_token_is_an_error (w : World) s r d :
  server w (requests_of (events s)) PostToken = CallReturns r →
  ¬ http_error r →
  body r = Some (JDict d) →
  truthy (dict_get "token" d) = false →
  get_access_token w s =
    (Raise NoTokenFound,
     State (events s ++ [Call PostToken;
                         Print (FailedToAuthenticate (status_code r))])
           (clock_reads s)).
Proof.
  intros Hs Herr Hb Ht. rewrite get_access_token_run, Hs. cbv zeta.
  apply raise_for_status_Ok in Herr. rewrite Herr, result_bind_Ok.
  unfold response_json. rewrite Hb, result_bind_Ok.
  cbn [py_get]. rewrite result_bind_Ok. unfold dict_get in Ht. rewrite Ht.
  cbn [events]. by rewrite <-app_assoc.
Qed.

Lemma get_access_token_requests (w : World) s res s' :
  get_access_token w s = (res, s') →
  requests_of (events s') = requests_of (events s) ++ [PostToken].
Proof.
  rewrite get_access_token_run. cbv zeta.
  destruct (server w _ _) as [|r]; [intros [= <- <-]; by tidy|].
  destruct (_ ≫= _); intros [= <- <-]; by tidy.
Qed.

(** The errors of the Authenticator have texts that can be printed. *)
Lemma get_access_token_error (w : World) s e s' :
  get_access_token w s = (Raise e, s') → printable (ErrorOccurred e) = true.
Proof.
  rewrite get_access_token_run. cbv zeta.
  destruct (server w _ _) as [|r]; [by intros [= <- _]|].
  destruct (_ ≫= _) as [t|e'] eqn:Hp; [done|]. intros [= <- _].
  revert Hp. unfold raise_for_status.
  destruct (_ && _); [by intros [= <-]|]. rewrite result_bind_Ok.
  unfold response_json. destruct (body r) as [v|]; [|by intros [= <-]].
  rewrite result_bind_Ok.
  destruct v; cbn [py_get]; try by intros [= <-].
  rewrite result_bind_Ok. destruct (truthy _); [done|by intros [= <-]].
Qed.

(** X3.  When the check lets the run proceed and authentication fails,
    for whatever reason, the run ends there: the token request is the
    last request, so no meter list, no reading and no forward is ever
    requested, and [main] prints the error and returns. *)
Theorem no_provider_call_without_token (w : World) (D : Z) s s1 e s2 :
  check_run_yesterday w s = (Ok false, s1) →
  get_access_token w
    (State (events s1 ++ [Print NoExistingMeasurements; Print Authenticating])
           (clock_reads s1)) = (Raise e, s2) →
  main w D s =
    (Ok (), State (events s2 ++ [Print (ErrorOccurred e)]) (clock_reads s2)) ∧
  ∃ ids y,
    requests_of (events s2 ++ [Print (ErrorOccurred e)]) =
      requests_of (events s) ++ [GetSubjects; PostMeasurements ids y; PostToken].
Proof.
  intros Hc Ht. split.
  - unfold main, main_body. rewrite try_except_run, bind_run, Hc.
    rewrite bind_run. unfold print at 1, printable at 1.
  rewrite bind_run. unfold print at 1, printable at 1.
    cbn [events clock_reads]. rewrite <-app_assoc. cbn [app].
    by rewrite bind_run, Ht, print_run, (get_access_token_error _ _ _ _ Ht).
  - apply get_access_token_requests in Ht.
    apply check_run_yesterday_Ok in Hc as (ids & y & _ & _ & _ & -> & _).
    exists ids, y. rewrite requests_of_snoc_print, Ht. cbn [events].
    rewrite requests_of_app, !requests_of_app. cbn. by rewrite app_nil_r, <-app_assoc.
Qed.

(** ** Edge cases of the Idempotency Checker *)

(** X4.  The checker returns the truth value of whatever the measurement
    search has under "result": a missing key, null, 0, "" or an empty
    container give False (the run proceeds), anything else gives True (the
    run is skipped), list or not. *)
Theorem check_is_truth_of_result (w : World) s r1 d1 subjects y r2 d2 :
  server w (requests_of (events s)) GetSubjects = CallReturns r1 →
  ¬ http_error r1 →
  body r1 = Some (JDict d1) →
  match dict_lookup "result" d1 with Some x => x | None => JList [] end
    = JList subjects →
  Forall (λ x, ∃ d, x = JDict d) subjects →
  minus_days (clock w (clock_reads s)) 1 = Ok y →
  server w (requests_of (events s) ++ [GetSubjects])
    (PostMeasurements (meter_ids_of subjects) y) = CallReturns r2 →
  ¬ http_error r2 →
  body r2 = Some (JDict d2) →
  check_run_yesterday w s =
    (Ok (truthy (dict_get "result" d2)),
     State (events s ++ [Call GetSubjects;
                         Call (PostMeasurements (meter_ids_of subjects) y)])
           (S (clock_reads s))).
Proof.
  intros Hs1 He1 Hb1 Hres1 Hsub Hy Hs2 He2 Hb2.
  rewrite check_run_yesterday_run, Hs1. cbv zeta.
  apply raise_for_status_Ok in He1, He2. rewrite He1, result_bind_Ok.
  unfold response_json at 1. rewrite Hb1, result_bind_Ok.
  cbn [py_get]. rewrite Hres1, result_bind_Ok.
  cbn [py_iter]. rewrite result_bind_Ok.
  rewrite (collect_subject_ids_records _ Hsub), Hy.
  cbn [events clock_reads]. rewrite requests_of_snoc_call, Hs2.
  rewrite He2, result_bind_Ok. unfold response_json. rewrite Hb2, result_bind_Ok.
  cbn [py_get]. by rewrite <-app_assoc.
Qed.

Lemma result_bind_Raise {A B} e (f : A → result B) : Raise e ≫= f = Raise e.
Proof. reflexivity. Qed.

Lemma py_contains_Raise k v e : py_contains k v = Raise e → e = TypeError.
Proof. destruct v; simpl; congruence. Qed.

Lemma collect_subject_ids_Raise (l : list json) e :
  collect_subject_ids l = Raise e → e = TypeError.
Proof.
  induction l as [|x l IH]; [done|]. cbn [collect_subject_ids].
  destruct (py_contains "id" x) as [[]|e'] eqn:Hc; rewrite ?result_bind_Ok.
  - destruct x; try discriminate Hc; cbn [py_getitem].
    + intros [= <-]. done.
    + intros [= <-]. done.
    + cbn [py_contains] in Hc. destruct (dict_lookup "id" d); [|done].
      rewrite result_bind_Ok.
      destruct (collect_subject_ids l); [done|]. intros [= <-]. by apply IH.
  - exact IH.
  - intros [= <-]. by apply py_contains_Raise in Hc.
Qed.

Lemma collect_subject_ids_scalar (l : list json) x :
  x ∈ l → scalar x → collect_subject_ids l = Raise TypeError.
Proof.
  intros Hin Hx.
  destruct (collect_subject_ids l) as [ids|e] eqn:Hl.
  - exfalso. revert ids Hl. induction Hin as [x l|x y l Hin IH]; intros ids.
    + cbn [collect_subject_ids]. by destruct x.
    + cbn [collect_subject_ids].
      destruct (py_contains "id" y) as [[]|];
        rewrite ?result_bind_Ok, ?result_bind_Raise; [| |done].
      * destruct (py_getitem "id" y); rewrite ?result_bind_Ok, ?result_bind_Raise; [|done].
        destruct (collect_subject_ids l) eqn:Hl'; [|done]. intros _. by eapply IH.
      * by apply IH.
  - by apply collect_subject_ids_Raise in Hl as ->.
Qed.

(** X5.  A subject listing whose "result" is itself a number, a boolean or
    null, or is a list with such an element, makes the checker raise
    [TypeError] right after the listing: the measurement search is never
    issued.  (The meter list, by contrast, tolerates such elements.) *)
Theorem odd_subject_raises_type_error (w : World) s r1 d1 :
  server w (requests_of (events s)) GetSubjects = CallReturns r1 →
  ¬ http_error r1 →
  body r1 = Some (JDict d1) →
  (∃ v, dict_lookup "result" d1 = Some v ∧
        (scalar v ∨ ∃ l x, v = JList l ∧ x ∈ l ∧ scalar x)) →
  check_run_yesterday w s =
    (Raise TypeError, State (events s ++ [Call GetSubjects]) (clock_reads s)).
Proof.
  intros Hs1 He1 Hb1 (v & Hd & Hv).
  rewrite check_run_yesterday_run, Hs1. cbv zeta.
  apply raise_for_status_Ok in He1. rewrite He1, result_bind_Ok.
  unfold response_json. rewrite Hb1, result_bind_Ok.
  cbn [py_get]. rewrite Hd, result_bind_Ok.
  destruct Hv as [Hv|(l & x & -> & Hin & Hx)].
  - by destruct v.
  - cbn [py_iter]. rewrite result_bind_Ok.
    by rewrite (collect_subject_ids_scalar l x Hin Hx).
Qed.

(** ** More on the deduplication *)

Lemma first_occurrences_id (l : list json) :
  NoDup (hash_key <$> l) → first_occurrences l = l.
Proof.
  induction l as [|x l IH]; [done|].
  rewrite fmap_cons. intros [Hx Hl]%NoDup_cons. cbn [first_occurrences].
  rewrite (IH Hl). f_equal. clear IH Hl.
  induction l as [|y l IHl]; [done|].
  rewrite fmap_cons in Hx. apply not_elem_of_cons in Hx as [Hne Hx].
  rewrite filter_cons_True by congruence. f_equal. by apply IHl.
Qed.

Lemma dedup_loop_Raise (l : list json) :
  ∀ seen acc e, dedup_loop l seen acc = Raise e → e = TypeError.
Proof.
  induction l as [|x l IH]; intros seen acc e; [done|]. cbn [dedup_loop].
  destruct (hash_key x); [|by intros [= <-]].
  destruct (decide _); apply IH.
Qed.

Lemma meter_enumerator_parsed (w : World) tok s r v :
  server w (requests_of (events s)) (GetMyMeters tok) = CallReturns r →
  ¬ http_error r →
  body r = Some v →
  meter_enumerator w tok s =
    match parse_meters v with
    | Ok ids => (Ok ids, State (events s ++ [Call (GetMyMeters tok)]) (clock_reads s))
    | Raise e =>
        (Raise e,
         State (events s ++ [Call (GetMyMeters tok);
                             Print (FailedToParseMeters (status_code r))])
               (clock_reads s))
    end.
Proof.
  intros Hs Herr Hb. rewrite meter_enumerator_run, Hs. cbv zeta.
  apply raise_for_status_Ok in Herr. rewrite Herr.
  unfold response_json. rewrite Hb, result_bind_Ok.
  destruct (parse_meters v); [done|]. cbn [events]. by rewrite <-app_assoc.
Qed.

(** X6.  A meter list whose identifiers are hashable and pairwise
    different comes out of the Meter Enumerator unchanged: every
    identifier, once, in the order of the list. *)
Theorem duplicate_free_list_unchanged (w : World) tok s r d meters :
  server w (requests_of (events s)) (GetMyMeters tok) = CallReturns r →
  ¬ http_error r →
  body r = Some (JDict d) →
  dict_lookup "meters" d = Some (JList meters) →
  Forall (λ x, is_Some (hash_key x)) (meter_ids_of meters) →
  NoDup (hash_key <$> meter_ids_of meters) →
  meter_enumerator w tok s =
    (Ok (meter_ids_of meters),
     State (events s ++ [Call (GetMyMeters tok)]) (clock_reads s)).
Proof.
  intros Hs Herr Hb Hd Hhash Hnd.
  rewrite (meter_enumerator_parsed w tok s r _ Hs Herr Hb).
  unfold parse_meters. rewrite Hd.
  apply (dedup_loop_hashable _ ∅ []) in Hhash as [ids Hids]. rewrite Hids.
  apply dedup_loop_first_occurrences in Hids.
  rewrite filter_fresh_empty in Hids. simpl in Hids. subst ids.
  by rewrite first_occurrences_id.
Qed.

(** X7.  A meter record whose identifier is a list or an object cannot be
    put into the [seen] set: the Meter Enumerator raises [TypeError],
    prints the "failed to parse" line, and returns no identifier at all,
    whatever the other records are. *)
Theorem unhashable_id_raises (w : World) tok s r d meters x :
  server w (requests_of (events s)) (GetMyMeters tok) = CallReturns r →
  ¬ http_error r →
  body r = Some (JDict d) →
  dict_lookup "meters" d = Some (JList meters) →
  x ∈ meter_ids_of meters →
  (∃ l, x = JList l) ∨ (∃ o, x = JDict o) →
  meter_enumerator w tok s =
    (Raise TypeError,
     State (events s ++ [Call (GetMyMeters tok);
                         Print (FailedToParseMeters (status_code r))])
           (clock_reads s)).
Proof.
  intros Hs Herr Hb Hd Hin Hx.
  rewrite (meter_enumerator_parsed w tok s r _ Hs Herr Hb).
  unfold parse_meters. rewrite Hd.
  destruct (dedup_loop (meter_ids_of meters) ∅ []) as [ids|e] eqn:Hloop.
  - exfalso.
    assert (Hall : Forall (λ x, is_Some (hash_key x)) (meter_ids_of meters))
      by (apply (dedup_loop_hashable _ ∅ []); eauto).
    rewrite Forall_forall in Hall. destruct (Hall x Hin) as [k Hk].
    by destruct Hx as [[l ->]|[o ->]].
  - by apply dedup_loop_Raise in Hloop as ->.
Qed.

Lemma strip_twos_spec (p : positive) :
  ∀ q k, strip_twos p = (q, k) → 0 ≤ k ∧ Zpos p = Zpos q * 2 ^ k.
Proof.
  induction p as [p IH|p IH|]; intros q k; cbn [strip_twos].
  - intros [= <- <-]. lia.
  - destruct (strip_twos p) as [m j]. intros [= <- <-].
    destruct (IH m j eq_refl) as [Hj Hp]. split; [lia|].
    rewrite Z.pow_add_r by lia. rewrite Pos2Z.inj_xO, Hp. lia.
  - intros [= <- <-]. lia.
Qed.

Lemma strip_twos_inj (p p' : positive) :
  strip_twos p = strip_twos p' → p = p'.
Proof.
  destruct (strip_twos p) as [q k] eqn:H, (strip_twos p') as [q' k'] eqn:H'.
  intros [= <- <-].
  apply strip_twos_spec in H as [_ H], H' as [_ H']. lia.
Qed.

Lemma num_key_inj (n m : Z) : num_key n 0 = num_key m 0 → n = m.
Proof.
  unfold num_key.
  destruct n as [|p|p], m as [|p'|p']; try done;
    try (destruct (strip_twos p) as [q k]; done);
    try (destruct (strip_twos p') as [q' k']; done);
    destruct (strip_twos p) as [q k] eqn:H, (strip_twos p') as [q' k'] eqn:H';
    intros [= -> Hk]; try done;
    f_equal; apply strip_twos_inj; rewrite H, H'; f_equal; lia.
Qed.

Lemma hash_key_plain_inj (x y : json) :
  plain_id x → plain_id y → hash_key x = hash_key y → x = y.
Proof.
  destruct x, y; try done; cbn [hash_key]; intros _ _.
  - intros [= H]. f_equal. by apply num_key_inj.
  - unfold num_key. destruct n as [|p|p]; try done;
      destruct (strip_twos p); done.
  - unfold num_key. destruct n as [|p|p]; try done;
      destruct (strip_twos p); done.
  - by intros [= ->].
Qed.

(** X8.  Integer and text identifiers are merged only when they are the
    same: if every identifier of the meter list is an integer or a text,
    the identifiers produced are pairwise different and are exactly the
    identifiers that occur in the list. *)
Theorem plain_ids_merged_only_if_equal (w : World) tok s ids s' r d meters :
  meter_enumerator w tok s = (Ok ids, s') →
  server w (requests_of (events s)) (GetMyMeters tok) = CallReturns r →
  body r = Some (JDict d) →
  dict_lookup "meters" d = Some (JList meters) →
  Forall plain_id (meter_ids_of meters) →
  NoDup ids ∧ ∀ x, x ∈ ids ↔ x ∈ meter_ids_of meters.
Proof.
  intros Hrun Hs Hb Hd Hplain.
  apply meter_enumerator_Ok in Hrun as (_ & r' & v & Hs' & _ & Hb' & Hp).
  rewrite Hs in Hs'. injection Hs' as <-. rewrite Hb in Hb'. injection Hb' as <-.
  apply parse_meters_Ok in Hp as (meters' & (d' & [= <-] & Hd') & ->).
  rewrite Hd in Hd'. injection Hd' as <-.
  split; [apply (NoDup_fmap_1 hash_key), first_occurrences_NoDup|].
  rewrite Forall_forall in Hplain. intros x. split.
  - intros Hx. eapply elem_of_sublist; [exact Hx|apply first_occurrences_sublist].
  - intros Hx. destruct (first_occurrences_covers _ x Hx) as (y & Hy & Hyx).
    assert (y ∈ meter_ids_of meters)
      by (eapply elem_of_sublist; [exact Hy|apply first_occurrences_sublist]).
    by rewrite <-(hash_key_plain_inj y x) by auto.
Qed.

(** ** More on the Reading Fetcher *)

Section Fetcher.
Context (w : World).

Lemma reading_fetcher_Ok_bodies tok date ids :
  ∀ acc s data s',
    reading_fetcher w tok date ids acc s = (Ok data, s') →
    ∃ new, data = acc ++ new ∧
           bodies_of w (requests_of (events s)) (λ id, GetDataRaw tok id date) ids new.
Proof.
  induction ids as [|id rest IH]; intros acc s data s'.
  - intros [= <- <-]. exists []. rewrite app_nil_r. split; [done|].
    split; [done|]. intros k id Hk. by rewrite lookup_nil in Hk.
  - rewrite reading_fetcher_step. cbv zeta.
    destruct (server w _ _) as [|r] eqn:Hs; [done|].
    destruct (_ ≫= _) as [v|] eqn:Hp; [|by destruct (str_encodable id)].
    intros (new & -> & Hlen & Hnew)%IH.
    apply payload_Ok in Hp as [Herr Hb].
    exists (v :: new). rewrite <-app_assoc. split; [done|].
    split; [simpl; by rewrite Hlen|].
    intros [|k] id' Hk.
    + injection Hk as <-. exists r. simpl. by rewrite app_nil_r.
    + destruct (Hnew k id' Hk) as (r' & Hs' & ? & ?).
      exists r'. revert Hs'. tidy. rewrite <-app_assoc. done.
Qed.

(** X9.  What [fetch_power_usage] returns is the relay payload and nothing
    else: one element per enumerated meter, the k-th being the decoded body
    of the (successful) answer to the request for the k-th meter; nothing
    is added, dropped, reordered or altered. *)
Theorem fetched_payload_is_the_answers tok date_str s data s' :
  fetch_power_usage w tok date_str s = (Ok data, s') →
  ∃ ids,
    let date := match date_str with
                | Some d => d
                | None => Ymd (clock w (clock_reads s) - 1)
                end in
    meter_enumerator w tok
      (State (events s) (match date_str with
                         | Some _ => clock_reads s
                         | None => S (clock_reads s)
                         end))
      = (Ok ids, State (events s ++ [Call (GetMyMeters tok)])
                       (match date_str with
                        | Some _ => clock_reads s
                        | None => S (clock_reads s)
                        end)) ∧
    bodies_of w (requests_of (events s) ++ [GetMyMeters tok])
      (λ id, GetDataRaw tok id date) ids data.
Proof.
  unfold fetch_power_usage.
  intros (date & s1 & Hdate & H)%bind_Ok.
  apply bind_Ok in H as (ids & s2 & Henum & H).
  apply reading_fetcher_Ok_bodies in H as (new & [= ->] & Hbodies).
  pose proof (meter_enumerator_Ok w tok _ _ _ Henum) as [-> _].
  exists ids. cbv zeta. revert Hbodies. tidy. intros Hbodies.
  destruct date_str as [d|].
  - injection Hdate as <- <-. split; [by destruct s|done].
  - apply bind_Ok in Hdate as (now & ? & [[= ->] ->]%utcnow_inv & Hdate).
    apply bind_Ok in Hdate as (y & ? & [Hy ->]%lift_inv & Hdate).
    injection Hdate as <- <-. symmetry in Hy.
    apply minus_days_Ok in Hy as [-> _]. done.
Qed.


End Fetcher.

(** ** More on the Orchestrator *)

Ltac tidy_all :=
  cbn [events clock_reads];
  repeat first [rewrite requests_of_snoc_print | rewrite requests_of_snoc_call].

Lemma range_down_pos (D : Z) :
  0 < D → range_down D = D :: range_down (D - 1).
Proof.
  intros HD. unfold range_down.
  replace (Z.to_nat D) with (S (Z.to_nat (D - 1))) by lia.
  cbn [seq map]. f_equal; [lia|].
  rewrite <-seq_shift, List.map_map. apply List.map_ext. intros i. lia.
Qed.

Section Orchestrator.
Context (w : World).

(** The run up to the token, when the check lets it proceed. *)
Lemma main_body_proceeds D s s1 tok s2 :
  check_run_yesterday w s = (Ok false, s1) →
  get_access_token w
    (State (events s1 ++ [Print NoExistingMeasurements; Print Authenticating])
           (clock_reads s1)) = (Ok tok, s2) →
  main_body w D s =
    (if 0 <? D then
       print (Backfilling D);;
       for_each (range_down D) (backfill_day w tok);;
       print BackfillComplete
     else
       print FetchingYesterday;;
       data ← fetch_power_usage w tok None;
       print SendingData;;
       forward_to_blockbax w data;;
       print Done) s2.
Proof.
  intros Hc Ht. unfold main_body. rewrite bind_run, Hc.
  rewrite bind_run. unfold print at 1, printable at 1.
  rewrite bind_run. unfold print at 1, printable at 1.
  cbn [events clock_reads]. rewrite <-app_assoc. cbn [app].
  by rewrite bind_run, Ht.
Qed.

(** X11.  An account without meters is not an error: when the meter list
    has no record bearing an identifier, the default run requests no
    reading and still calls the Forwarder, with the empty list as
    payload. *)
Theorem no_meters_forwards_empty_list (D : Z) s s1 tok s2 y r d meters :
  D ≤ 0 →
  check_run_yesterday w s = (Ok false, s1) →
  get_access_token w
    (State (events s1 ++ [Print NoExistingMeasurements; Print Authenticating])
           (clock_reads s1)) = (Ok tok, s2) →
  minus_days (clock w (clock_reads s2)) 1 = Ok y →
  server w (requests_of (events s2)) (GetMyMeters tok) = CallReturns r →
  ¬ http_error r →
  body r = Some (JDict d) →
  dict_lookup "meters" d = Some (JList meters) →
  meter_ids_of meters = [] →
  requests_of (events (main w D s).2) =
    requests_of (events s2) ++ [GetMyMeters tok; PostToBlockbax []].
Proof.
  intros HD Hc Ht Hy Hs Herr Hb Hd Hnone.
  assert (Hneg : (0 <? D) = false) by lia.
  unfold main. rewrite try_except_run, (main_body_proceeds D s s1 tok s2 Hc Ht), Hneg.
  rewrite bind_run. unfold print at 1, printable at 1.
  rewrite bind_run. unfold fetch_power_usage.
  rewrite bind_run, bind_run. unfold utcnow at 1. cbn [events clock_reads].
  rewrite bind_run. unfold lift at 1. rewrite Hy.
  change ((mret (Ymd y) : M date_str) ?s) with (Ok (Ymd y), s).
  cbn iota beta.
  rewrite bind_run.
  rewrite (meter_enumerator_parsed w tok _ r (JDict d)); [|by tidy|done|done].
  unfold parse_meters. rewrite Hd, Hnone. cbn [dedup_loop reading_fetcher].
  change ((mret [] : M (list json)) ?s) with (Ok (@nil json), s). cbn iota beta.
  rewrite bind_run. unfold print at 1, printable at 1. rewrite bind_run.
  rewrite forward_to_blockbax_run. cbv zeta. cbn [events clock_reads].
  destruct (server w _ (PostToBlockbax [])) as [|r'].
  - unfold print, printable. cbn [snd]. tidy_all. by rewrite <-app_assoc.
  - destruct (raise_for_status r') as [[]|e].
    + unfold print, printable. cbn [snd]. tidy_all. by rewrite <-app_assoc.
    + destruct (print (ErrorOccurred e) _) as [res s'] eqn:Hp.
      apply print_requests in Hp as [Hp _]. cbn [snd]. rewrite Hp.
      tidy_all. by rewrite <-app_assoc.
Qed.

(** X12.  A backfill day-count that reaches before 0001-01-01 ends the run
    in its first iteration: the date arithmetic raises [OverflowError]
    before anything is fetched, so after the token request no request is
    made at all, and [main] prints the error and returns. *)
Theorem backfill_before_calendar_aborts (D today : Z) s s1 tok s2 :
  0 < D →
  (∀ n, clock w n = today) →
  today - D < 1 →
  check_run_yesterday w s = (Ok false, s1) →
  get_access_token w
    (State (events s1 ++ [Print NoExistingMeasurements; Print Authenticating])
           (clock_reads s1)) = (Ok tok, s2) →
  main w D s =
    (Ok (),
     State (events s2 ++ [Print (Backfilling D); Print (ErrorOccurred OverflowError)])
           (S (clock_reads s2))).
Proof.
  intros HD Hclock Hlt Hc Ht.
  assert (Hpos : (0 <? D) = true) by lia.
  unfold main. rewrite try_except_run, (main_body_proceeds D s s1 tok s2 Hc Ht), Hpos.
  rewrite bind_run. unfold print at 1, printable at 1. rewrite bind_run.
  rewrite (range_down_pos D HD). cbn [for_each]. rewrite bind_run.
  rewrite (backfill_day_before_calendar w today Hclock tok D _ Hlt).
  unfold print, printable. cbn [events clock_reads]. by rewrite <-app_assoc.
Qed.


End Orchestrator.

(** ** No request after an unusable answer *)

Section FailFast.
Context (w : World) (p : list event).

Lemma steady_start : steady_after w p p.
Proof.
  intros t1 r t2 H. exfalso.
  rewrite <-(app_nil_r p) in H at 1. apply app_inv_head in H.
  by destruct t1.
Qed.

Lemma steady_stopped t : steady_after w p t → stopped_after w p t.
Proof. intros H t1 r t2 Heq Hf. by destruct (H t1 r t2). Qed.

Lemma steady_print t m : steady_after w p t → steady_after w p (t ++ [Print m]).
Proof.
  intros H t1 r t2 Heq. rewrite app_assoc in Heq.
  apply snoc_split in Heq as [(_ & _ & [=])|(t2' & -> & ->)].
  apply (H t1 r t2'). by rewrite <-app_assoc.
Qed.

Lemma stopped_print t m : stopped_after w p t → stopped_after w p (t ++ [Print m]).
Proof.
  intros H t1 r t2 Heq Hf. rewrite app_assoc in Heq.
  apply snoc_split in Heq as [(_ & _ & [=])|(t2' & -> & ->)].
  rewrite requests_of_snoc_print. eapply H; [|done]. by rewrite <-app_assoc.
Qed.

Lemma steady_call t r :
  steady_after w p t →
  ¬ unusable r (server w (requests_of t) r) →
  steady_after w p (t ++ [Call r]).
Proof.
  intros H Hr t1 r' t2 Heq. rewrite app_assoc in Heq.
  apply snoc_split in Heq as [(_ & -> & [= ->])|(t2' & -> & ->)]; [done|].
  apply (H t1 r' t2'). by rewrite <-app_assoc.
Qed.

Lemma stopped_call t r : steady_after w p t → stopped_after w p (t ++ [Call r]).
Proof.
  intros H t1 r' t2 Heq Hf. rewrite app_assoc in Heq.
  apply snoc_split in Heq as [(-> & _ & _)|(t2' & -> & ->)]; [done|].
  destruct (H t1 r' t2'); [by rewrite <-app_assoc|done].
Qed.

Lemma usable_answer q r :
  raise_for_status r = Ok () → body r ≠ None → ¬ unusable q (CallReturns r).
Proof.
  intros Hst%raise_for_status_Ok Hb [?|[? _]]; done.
Qed.

Lemma ff_ret {A} (a : A) : failfast w p (mret a).
Proof. intros s res s' Hc [= <- <-]. by left. Qed.

Lemma ff_lift {A} (r : result A) : failfast w p (lift r).
Proof. intros s res s' Hc [= <- <-]. by left. Qed.

Lemma ff_print m : failfast w p (print m).
Proof.
  intros s res s' Hc [(_ & _ & ->)|(_ & _ & ->)]%print_cases; left;
    [by apply steady_print|done].
Qed.

Lemma ff_utcnow : failfast w p (utcnow w).
Proof. intros s res s' Hc [= <- <-]. by left. Qed.

Lemma ff_bind {A B} (m : M A) (f : A → M B) :
  failfast w p m → (∀ a, failfast w p (f a)) → failfast w p (m ≫= f).
Proof.
  intros Hm Hf s res s' Hc. rewrite bind_run.
  destruct (m s) as [[a|e] s1] eqn:Hms.
  - destruct (Hm _ _ _ Hc Hms) as [Hc1|[[? [=]] _]]. by apply Hf.
  - intros [= <- <-].
    destruct (Hm _ _ _ Hc Hms) as [?|[_ ?]]; [by left|right; eauto].
Qed.

Lemma ff_for_each {A} (l : list A) (body : A → M ()) :
  (∀ x, failfast w p (body x)) → failfast w p (for_each l body).
Proof.
  intros Hb. induction l as [|x l IH]; simpl.
  - apply ff_ret.
  - apply ff_bind; [apply Hb | by intros _].
Qed.

Lemma ff_get_access_token : failfast w p (get_access_token w).
Proof.
  intros s res s' Hc. rewrite get_access_token_run. cbv zeta.
  destruct (server w _ _) as [|r] eqn:Hs.
  { intros [= <- <-]. right. split; [eauto|]. by apply stopped_call. }
  destruct (raise_for_status r) as [[]|] eqn:Hst.
  2:{ rewrite result_bind_Raise. intros [= <- <-]. right. split; [eauto|].
      cbn [events]. by apply stopped_print, stopped_call. }
  rewrite result_bind_Ok. unfold response_json.
  destruct (body r) as [v|] eqn:Hb.
  2:{ rewrite result_bind_Raise. intros [= <- <-]. right. split; [eauto|].
      cbn [events]. by apply stopped_print, stopped_call. }
  rewrite result_bind_Ok.
  destruct (_ ≫= _); intros [= <- <-].
  - left. cbn [events]. apply steady_call; [done|]. rewrite Hs.
    apply usable_answer; [done|congruence].
  - right. split; [eauto|]. cbn [events]. by apply stopped_print, stopped_call.
Qed.

Lemma ff_meter_enumerator tok : failfast w p (meter_enumerator w tok).
Proof.
  intros s res s' Hc. rewrite meter_enumerator_run. cbv zeta.
  destruct (server w _ _) as [|r] eqn:Hs.
  { intros [= <- <-]. right. split; [eauto|]. by apply stopped_call. }
  destruct (raise_for_status r) as [[]|] eqn:Hst.
  2:{ intros [= <- <-]. right. split; [eauto|]. by apply stopped_call. }
  unfold response_json. destruct (body r) as [v|] eqn:Hb.
  2:{ rewrite result_bind_Raise. intros [= <- <-]. right. split; [eauto|].
      cbn [events]. by apply stopped_print, stopped_call. }
  rewrite result_bind_Ok.
  destruct (parse_meters v); intros [= <- <-].
  - left. cbn [events]. apply steady_call; [done|]. rewrite Hs.
    apply usable_answer; [done|congruence].
  - right. split; [eauto|]. cbn [events]. by apply stopped_print, stopped_call.
Qed.

Lemma ff_reading_fetcher tok date ids :
  ∀ acc, failfast w p (reading_fetcher w tok date ids acc).
Proof.
  induction ids as [|id rest IH]; intros acc; [apply ff_ret|].
  intros s res s' Hc. rewrite reading_fetcher_step. cbv zeta.
  destruct (server w _ _) as [|r] eqn:Hs.
  - intros [= <- <-]. right. split; [eauto|]. by apply stopped_call.
  - destruct (_ ≫= _) as [v|e] eqn:Hp.
    + apply IH. cbn [events]. apply steady_call; [done|]. rewrite Hs.
      apply payload_Ok in Hp as [Herr Hv].
      apply usable_answer; [by apply raise_for_status_Ok|congruence].
    + destruct (str_encodable id); intros [= <- <-]; (right; split; [eauto|]);
        cbn [events]; [by apply stopped_print, stopped_call|by apply stopped_call].
Qed.

Lemma ff_forward_to_blockbax data : failfast w p (forward_to_blockbax w data).
Proof.
  intros s res s' Hc. rewrite forward_to_blockbax_run. cbv zeta.
  destruct (server w _ _) as [|r] eqn:Hs.
  - intros [= <- <-]. right. split; [eauto|]. by apply stopped_call.
  - intros [= <- <-].
    destruct (raise_for_status r) as [[]|] eqn:Hst.
    + left. cbn [events]. apply steady_call; [done|]. rewrite Hs.
      apply raise_for_status_Ok in Hst. by intros [?|[_ []]].
    + right. split; [eauto|]. by apply stopped_call.
Qed.

Lemma ff_check_run_yesterday : failfast w p (check_run_yesterday w).
Proof.
  intros s res s' Hc. rewrite check_run_yesterday_run. cbv zeta.
  destruct (server w _ GetSubjects) as [|r1] eqn:Hs1.
  { intros [= <- <-]. right. split; [eauto|]. by apply stopped_call. }
  destruct (raise_for_status r1) as [[]|] eqn:Hst1.
  2:{ rewrite result_bind_Raise. intros [= <- <-]. right. split; [eauto|].
      by apply stopped_call. }
  rewrite result_bind_Ok. unfold response_json at 1.
  destruct (body r1) as [v1|] eqn:Hb1.
  2:{ rewrite !result_bind_Raise. intros [= <- <-]. right. split; [eauto|].
      by apply stopped_call. }
  assert (Hc1 : steady_after w p (events s ++ [Call GetSubjects])).
  { apply steady_call; [done|]. rewrite Hs1. apply usable_answer; [done|congruence]. }
  destruct (_ ≫= _) as [ids|]; [|intros [= <- <-]; by left].
  destruct (minus_days _ 1) as [y|]; [|intros [= <- <-]; by left].
  cbn [events].
  destruct (server w _ (PostMeasurements ids y)) as [|r2] eqn:Hs2.
  { intros [= <- <-]. right. split; [eauto|]. by apply stopped_call. }
  destruct (raise_for_status r2) as [[]|] eqn:Hst2.
  2:{ rewrite result_bind_Raise. intros [= <- <-]. right. split; [eauto|].
      by apply stopped_call. }
  rewrite result_bind_Ok. unfold response_json.
  destruct (body r2) as [v2|] eqn:Hb2.
  2:{ rewrite result_bind_Raise. intros [= <- <-]. right. split; [eauto|].
      by apply stopped_call. }
  assert (Hc2 : steady_after w p
            ((events s ++ [Call GetSubjects]) ++ [Call (PostMeasurements ids y)])).
  { apply steady_call; [done|]. rewrite Hs2. apply usable_answer; [done|congruence]. }
  rewrite result_bind_Ok. destruct (py_get v2 "result" JNull); intros [= <- <-]; by left.
Qed.

Lemma ff_fetch_power_usage tok date : failfast w p (fetch_power_usage w tok date).
Proof.
  unfold fetch_power_usage. apply ff_bind.
  - destruct date; [apply ff_ret|].
    apply ff_bind; [apply ff_utcnow|intros ?].
    apply ff_bind; [apply ff_lift|intros ?]. apply ff_ret.
  - intros ?. apply ff_bind; [apply ff_meter_enumerator|intros ?].
    apply ff_reading_fetcher.
Qed.

Lemma ff_backfill_day tok days_ago : failfast w p (backfill_day w tok days_ago).
Proof.
  unfold backfill_day.
  apply ff_bind; [apply ff_utcnow|intros ?].
  apply ff_bind; [apply ff_lift|intros ?].
  apply ff_bind; [apply ff_print|intros ?].
  apply ff_bind; [apply ff_fetch_power_usage|intros ?].
  apply ff_bind; [apply ff_print|intros ?].
  apply ff_forward_to_blockbax.
Qed.

Lemma ff_main_body D : failfast w p (main_body w D).
Proof.
  unfold main_body.
  apply ff_bind; [apply ff_check_run_yesterday|intros []]; [apply ff_print|].
  apply ff_bind; [apply ff_print|intros ?].
  apply ff_bind; [apply ff_print|intros ?].
  apply ff_bind; [apply ff_get_access_token|intros tok].
  destruct (0 <? D).
  - apply ff_bind; [apply ff_print|intros ?].
    apply ff_bind; [apply ff_for_each, ff_backfill_day|intros ?]. apply ff_print.
  - apply ff_bind; [apply ff_print|intros ?].
    apply ff_bind; [apply ff_fetch_power_usage|intros ?].
    apply ff_bind; [apply ff_print|intros ?].
    apply ff_bind; [apply ff_forward_to_blockbax|intros ?]. apply ff_print.
Qed.

End FailFast.

(** X14.  There is no retry and no carrying on, at any of the six calls:
    in every run of [main], a request whose call raises, or that is
    answered with a 4xx/5xx status, or -- for every call whose answer is
    read, that is all but the forward -- with a body that is not JSON, is
    the last request of the run. *)
Theorem no_request_after_unusable_answer (w : World) (D : Z) s t1 r t2 :
  events (main w D s).2 = events s ++ t1 ++ Call r :: t2 →
  unusable r (server w (requests_of (events s ++ t1)) r) →
  requests_of t2 = [].
Proof.
  unfold main. rewrite try_except_run.
  destruct (main_body w D s) as [[[]|e] s'] eqn:Hb; cbn [snd]; intros Hev Hbad.
  - destruct (ff_main_body w (events s) D s _ _ (steady_start w _) Hb) as [Hc|[[? [=]] _]].
    by destruct (Hc t1 r t2).
  - assert (Hs : stopped_after w (events s) (events s')).
    { destruct (ff_main_body w (events s) D s _ _ (steady_start w _) Hb) as [?|[_ ?]];
        [by apply steady_stopped|done]. }
    rewrite print_run in Hev.
    destruct (printable (ErrorOccurred e)); cbn [snd events] in Hev.
    + by apply (stopped_print _ _ _ (ErrorOccurred e) Hs t1 r t2).
    + by apply (Hs t1 r t2).
Qed.

(** ** The order of the calls *)

Section Protocol.
Context (w : World) (P : request → Prop).

Lemma only_silent {A} (m : M A) :
  (∀ s res s', m s = (res, s') → requests_of (events s') = requests_of (events s)) →
  only P m.
Proof.
  intros H s res s' Hm. exists []. rewrite app_nil_r. split; [by eapply H|done].
Qed.

Lemma only_ret {A} (a : A) : only P (mret a).
Proof. apply only_silent. by intros s res s' [= <- <-]. Qed.

Lemma only_raise {A} e : only P (raise e : M A).
Proof. apply only_silent. by intros s res s' [= <- <-]. Qed.

Lemma only_lift {A} (r : result A) : only P (lift r).
Proof. apply only_silent. by intros s res s' [= <- <-]. Qed.

Lemma only_print m : only P (print m).
Proof. apply only_silent. by intros s res s' [? _]%print_requests. Qed.

Lemma only_utcnow : only P (utcnow w).
Proof. apply only_silent. by intros s res s' [= <- <-]. Qed.

Lemma only_http r : P r → only P (http w r).
Proof.
  intros Hr s res s' [-> _]%http_inv. exists [r]. tidy. split; [done|].
  by constructor.
Qed.

Lemma only_bind {A B} (m : M A) (f : A → M B) :
  only P m → (∀ a, only P (f a)) → only P (m ≫= f).
Proof.
  intros Hm Hf s res s'. rewrite bind_run.
  destruct (m s) as [[a|e] s1] eqn:Hms.
  - intros Hfa. destruct (Hm _ _ _ Hms) as (rs1 & Hr1 & HP1).
    destruct (Hf a _ _ _ Hfa) as (rs2 & Hr2 & HP2).
    exists (rs1 ++ rs2). rewrite Hr2, Hr1, <-app_assoc. split; [done|].
    by apply Forall_app.
  - intros [= <- <-]. by apply (Hm _ _ _ Hms).
Qed.

Lemma only_try {A} (m : M A) (h : exn → M A) :
  only P m → (∀ e, only P (h e)) → only P (try_except m h).
Proof.
  intros Hm Hh s res s'. rewrite try_except_run.
  destruct (m s) as [[a|e] s1] eqn:Hms.
  - intros [= <- <-]. by apply (Hm _ _ _ Hms).
  - intros Hhe. destruct (Hm _ _ _ Hms) as (rs1 & Hr1 & HP1).
    destruct (Hh e _ _ _ Hhe) as (rs2 & Hr2 & HP2).
    exists (rs1 ++ rs2). rewrite Hr2, Hr1, <-app_assoc. split; [done|].
    by apply Forall_app.
Qed.

Lemma only_for_each {A} (l : list A) (body : A → M ()) :
  (∀ x, only P (body x)) → only P (for_each l body).
Proof.
  intros Hb. induction l as [|x l IH]; simpl.
  - apply only_ret.
  - apply only_bind; [apply Hb | by intros _].
Qed.

End Protocol.

Ltac only_step :=
  first
    [ apply only_print | apply only_lift | apply only_ret | apply only_raise
    | apply only_utcnow
    | apply only_http; simpl; done
    | apply only_try; [|intros ?]
    | apply only_for_each; intros ?
    | apply only_bind; [|intros ?]
    | match goal with
      | |- only _ (if ?b then _ else _) => destruct b
      | |- only _ (match ?x with _ => _ end) => destruct x
      end ].

Section Discipline.
Context (w : World).

Lemma only_reading_fetcher tok date ids :
  ∀ acc, only (carries tok) (reading_fetcher w tok date ids acc).
Proof.
  induction ids as [|id rest IH]; intros acc; cbn [reading_fetcher].
  - apply only_ret.
  - apply only_bind; [by apply only_http|intros resp].
    apply only_bind; [repeat only_step|intros ?]. apply IH.
Qed.

Lemma only_fetch_power_usage tok date :
  only (carries tok) (fetch_power_usage w tok date).
Proof.
  unfold fetch_power_usage, meter_enumerator.
  apply only_bind; [destruct date; repeat only_step|intros ?].
  apply only_bind; [repeat only_step|intros ?].
  apply only_reading_fetcher.
Qed.

Lemma only_forward_to_blockbax tok data :
  only (carries tok) (forward_to_blockbax w data).
Proof. unfold forward_to_blockbax. repeat only_step. Qed.

Lemma only_backfill_day tok days_ago :
  only (carries tok) (backfill_day w tok days_ago).
Proof.
  unfold backfill_day.
  repeat first [apply only_fetch_power_usage | apply only_forward_to_blockbax
               | only_step].
Qed.

Lemma check_run_yesterday_requests s res s' :
  check_run_yesterday w s = (res, s') →
  ∃ c, requests_of (events s') = requests_of (events s) ++ c ∧
       (c = [GetSubjects] ∨ ∃ ids y, c = [GetSubjects; PostMeasurements ids y]).
Proof.
  rewrite check_run_yesterday_run. cbv zeta.
  destruct (server w _ GetSubjects) as [|r1].
  { intros [= <- <-]. exists [GetSubjects]. tidy. auto. }
  destruct (raise_for_status r1 ≫= _) as [ids|].
  2:{ intros [= <- <-]. exists [GetSubjects]. tidy. auto. }
  destruct (minus_days _ 1) as [y|].
  2:{ intros [= <- <-]. exists [GetSubjects]. tidy. auto. }
  exists [GetSubjects; PostMeasurements ids y].
  split; [|right; eauto].
  destruct (server w _ (PostMeasurements ids y)) as [|r2].
  { injection H as <- <-. cbn [events]. by rewrite !requests_of_snoc_call, <-app_assoc. }
  destruct (raise_for_status r2 ≫= _); injection H as <- <-; cbn [events];
    by rewrite !requests_of_snoc_call, <-app_assoc.
Qed.

End Discipline.

(** X15.  Every run of [main] keeps the order of the calls: first the
    subject listing, possibly followed by the measurement search; then at
    most one token request; and after it only requests made on behalf of
    the token that this one request was granted -- meter lists and readings
    carrying it, and forwards.  No provider request is ever made without a
    granted token, and no second token is ever requested. *)
Theorem run_keeps_the_order_of_calls (w : World) (D : Z) s :
  ∃ c rest,
    requests_of (events (main w D s).2) = requests_of (events s) ++ c ++ rest ∧
    (c = [GetSubjects] ∨ ∃ ids y, c = [GetSubjects; PostMeasurements ids y]) ∧
    (rest = [] ∨
     ∃ after, rest = PostToken :: after ∧
       (after = [] ∨
        ∃ tok, grants (server w (requests_of (events s) ++ c) PostToken) tok ∧
               Forall (carries tok) after)).
Proof.
  assert (Hmain : ∀ res s', main_body w D s = (res, s') →
            requests_of (events (main w D s).2) = requests_of (events s')).
  { intros res s' Hb. unfold main. rewrite try_except_run, Hb.
    destruct res; [done|].
    destruct (print (ErrorOccurred e) s') as [res1 s1] eqn:Hp.
    by apply print_requests in Hp as [? _]. }
  destruct (main_body w D s) as [res s'] eqn:Hb.
  rewrite (Hmain _ _ eq_refl). clear Hmain.
  unfold main_body in Hb. rewrite bind_run in Hb.
  destruct (check_run_yesterday w s) as [[b|e] s1] eqn:Hc.
  2:{ injection Hb as <- <-.
      destruct (check_run_yesterday_requests w _ _ _ Hc) as (c & Hr & Hform).
      exists c, []. rewrite app_nil_r. auto. }
  destruct (check_run_yesterday_requests w _ _ _ Hc) as (c & Hr & Hform).
  destruct b.
  { apply print_requests in Hb as [Hb _]. exists c, [].
    rewrite Hb, app_nil_r. auto. }
  rewrite bind_run in Hb. unfold print at 1, printable at 1 in Hb.
  rewrite bind_run in Hb. unfold print at 1, printable at 1 in Hb.
  cbn [events clock_reads] in Hb.
  rewrite bind_run in Hb.
  destruct (get_access_token w _) as [[tok|e] s2] eqn:Ht.
  2:{ injection Hb as <- <-. apply get_access_token_requests in Ht.
      revert Ht. tidy. rewrite ?requests_of_snoc_print, Hr. intros ->.
      exists c, [PostToken]. rewrite <-app_assoc. split; [done|]. split; [done|].
      right. exists []. auto. }
  pose proof (get_access_token_requests w _ _ _ Ht) as Hr2.
  apply get_access_token_Ok in Ht as [_ Hgrant].
  revert Hr2 Hgrant. tidy. rewrite ?requests_of_snoc_print, Hr. intros Hr2 Hgrant.
  assert (Hrest : only (carries tok)
    (if 0 <? D then
       print (Backfilling D);;
       for_each (range_down D) (backfill_day w tok);;
       print BackfillComplete
     else
       print FetchingYesterday;;
       data ← fetch_power_usage w tok None;
       print SendingData;;
       forward_to_blockbax w data;;
       print Done)).
  { repeat first [apply only_fetch_power_usage | apply only_forward_to_blockbax
                 | apply only_backfill_day | only_step]. }
  destruct (Hrest _ _ _ Hb) as (after & Hr3 & Hafter).
  exists c, (PostToken :: after). rewrite Hr3, Hr2, <-!app_assoc.
  split; [done|]. split; [done|]. right. exists after. split; [done|].
  right. by exists tok.
Qed.

(** ** A backfill that fails part-way *)

Lemma for_each_app {A} (l1 l2 : list A) (body : A → M ()) s :
  for_each (l1 ++ l2) body s =
  match for_each l1 body s with
  | (Ok _, s1) => for_each l2 body s1
  | (Raise e, s1) => (Raise e, s1)
  end.
Proof.
  revert s. induction l1 as [|x l1 IH]; intros s; [done|].
  cbn [app for_each]. rewrite !bind_run.
  destruct (body x s) as [[[]|e] s1]; [apply IH|done].
Qed.

(** X17.  A backfill is not all-or-nothing: when the days before a day
    have been fetched and forwarded and that day fails, the loop raises
    that day's error and never starts the later days; the cycles of the
    earlier days have been made and stay made, followed only by what the
    failing day requested. *)
Theorem backfill_keeps_earlier_days (w : World) (today : Z) tok (l1 l2 : list Z) k s s1 e s2 :
  (∀ n, clock w n = today) →
  for_each l1 (backfill_day w tok) s = (Ok (), s1) →
  backfill_day w tok k s1 = (Raise e, s2) →
  for_each (l1 ++ k :: l2) (backfill_day w tok) s = (Raise e, s2) ∧
  ∃ (cycles : list (list json * list json)) partial,
    length cycles = length l1 ∧
    Forall (carries tok) partial ∧
    requests_of (events s2) =
      requests_of (events s) ++
        concat (zip_with (λ day c, cycle_requests tok (Ymd day) c.1 c.2)
                  ((λ k, today - k) <$> l1) cycles) ++
        partial.
Proof.
  intros Hclock Hl1 Hk. split.
  - rewrite for_each_app, Hl1. cbn [for_each]. by rewrite bind_run, Hk.
  - apply (backfill_loop_Ok w today Hclock) in Hl1 as (cycles & Hn & _ & Hreq).
    destruct (only_backfill_day w tok k _ _ _ Hk) as (partial & Hpart & Hcarry).
    exists cycles, partial. split; [done|]. split; [done|].
    by rewrite Hpart, Hreq, <-app_assoc.
Qed.

(** ** The days of a backfill *)



(** With the UTC day the same at every reading, these are the days
    [today - D] through [today - 1]. *)
Lemma backfill_days_read_fixed (w : World) (today : Z) (n : nat) (D : Z) :
  (∀ k, clock w k = today) →
  backfill_days_read w n D = backfill_days_of today D.
Proof.
  intros Hclock. unfold backfill_days_read.
  rewrite <-range_down_days, <-(imap_const (λ k, today - k)).
  apply imap_ext. intros i x _. cbn. by rewrite Hclock.
Qed.


(** ** A backfill of one day and the default run *)

Section Agreement.
Context (w : World).

Lemma agree_ret {A} (a : A) : agree (mret a : M A) (mret a).
Proof. by intros s1 s2 H. Qed.

Lemma agree_lift {A} (r : result A) : agree (lift r) (lift r).
Proof. by intros s1 s2 H. Qed.

Lemma agree_raise {A} e : agree (raise e : M A) (raise e).
Proof. by intros s1 s2 H. Qed.

(** Two lines make no difference, provided both can be encoded or
    neither can. *)
Lemma agree_print m1 m2 :
  printable m1 = printable m2 → agree (print m1) (print m2).
Proof.
  intros Hm s1 s2 [Hr Hc]. rewrite !print_run, Hm.
  destruct (printable m2); (split; [done|]); split; cbn [snd]; by tidy.
Qed.

Lemma agree_http r : agree (http w r) (http w r).
Proof.
  intros s1 s2 [Hr Hc]. unfold http. rewrite Hr.
  destruct (server w _ r); (split; [done|]); split; cbn [snd]; tidy; congruence.
Qed.

Lemma agree_utcnow : agree (utcnow w) (utcnow w).
Proof.
  intros s1 s2 [Hr Hc]. unfold utcnow. rewrite Hc. split; [done|].
  by split.
Qed.

Lemma agree_bind {A B} (m1 m2 : M A) (f1 f2 : A → M B) :
  agree m1 m2 → (∀ a, agree (f1 a) (f2 a)) → agree (m1 ≫= f1) (m2 ≫= f2).
Proof.
  intros Hm Hf s1 s2 Hs. rewrite !bind_run.
  destruct (Hm s1 s2 Hs) as [Hres Hst].
  destruct (m1 s1) as [[a|e] s1'], (m2 s2) as [[a'|e'] s2'];
    cbn [fst snd] in *; try done.
  - injection Hres as <-. by apply Hf.
  - by injection Hres as <-.
Qed.

Lemma agree_try {A} (m1 m2 : M A) (h1 h2 : exn → M A) :
  agree m1 m2 → (∀ e, agree (h1 e) (h2 e)) →
  agree (try_except m1 h1) (try_except m2 h2).
Proof.
  intros Hm Hh s1 s2 Hs. rewrite !try_except_run.
  destruct (Hm s1 s2 Hs) as [Hres Hst].
  destruct (m1 s1) as [[a|e] s1'], (m2 s2) as [[a'|e'] s2'];
    cbn [fst snd] in *; try done.
  injection Hres as <-. by apply Hh.
Qed.

(** A line printed first makes no difference. *)
Lemma agree_skip_l {A} line (m1 m2 : M A) :
  printable line = true → agree m1 m2 → agree (print line;; m1) m2.
Proof.
  intros Hl Hm s1 s2 [Hr Hc]. rewrite bind_run, print_run, Hl.
  apply Hm. split; by tidy.
Qed.

Lemma agree_skip_r {A} line (m1 m2 : M A) :
  printable line = true → agree m1 m2 → agree m1 (print line;; m2).
Proof.
  intros Hl Hm s1 s2 [Hr Hc]. rewrite bind_run, print_run, Hl.
  apply Hm. split; by tidy.
Qed.

Ltac agree_step :=
  first
    [ apply agree_print; reflexivity
    | apply agree_lift | apply agree_ret | apply agree_raise
    | apply agree_utcnow | apply agree_http
    | apply agree_try; [|intros ?]
    | apply agree_bind; [|intros ?]
    | match goal with
      | |- agree (if ?b then _ else _) (if ?b then _ else _) => destruct b
      end ].

Lemma agree_meter_enumerator tok :
  agree (meter_enumerator w tok) (meter_enumerator w tok).
Proof. unfold meter_enumerator. repeat agree_step. Qed.

Lemma agree_reading_fetcher tok date ids :
  ∀ acc, agree (reading_fetcher w tok date ids acc)
               (reading_fetcher w tok date ids acc).
Proof.
  induction ids as [|id rest IH]; intros acc; cbn [reading_fetcher].
  - apply agree_ret.
  - apply agree_bind; [apply agree_http|intros resp].
    apply agree_bind; [repeat agree_step|intros ?]. apply IH.
Qed.

Lemma agree_forward_to_blockbax data :
  agree (forward_to_blockbax w data) (forward_to_blockbax w data).
Proof. unfold forward_to_blockbax. repeat agree_step. Qed.

Lemma agree_check_run_yesterday :
  agree (check_run_yesterday w) (check_run_yesterday w).
Proof. unfold check_run_yesterday. repeat agree_step. Qed.

Lemma agree_get_access_token :
  agree (get_access_token w) (get_access_token w).
Proof. unfold get_access_token. repeat agree_step. Qed.

Lemma fetch_default_run tok s :
  fetch_power_usage w tok None s =
  match minus_days (clock w (clock_reads s)) 1 with
  | Ok y =>
      (meter_enumerator w tok ≫= λ ids, reading_fetcher w tok (Ymd y) ids [])
        (State (events s) (S (clock_reads s)))
  | Raise e => (Raise e, State (events s) (S (clock_reads s)))
  end.
Proof.
  unfold fetch_power_usage. rewrite bind_run, bind_run. unfold utcnow at 1.
  rewrite bind_run. unfold lift at 1. by destruct (minus_days _ 1).
Qed.

Lemma agree_ext_l {A} (m1 m1' m2 : M A) :
  (∀ s, m1 s = m1' s) → agree m1' m2 → agree m1 m2.
Proof. intros Heq H s1 s2 Hs. rewrite Heq. by apply H. Qed.

Lemma bind_assoc_run {A B C} (m : M A) (f : A → M B) (g : B → M C) s :
  ((m ≫= f) ≫= g) s = (m ≫= λ a, f a ≫= g) s.
Proof. rewrite !bind_run. by destruct (m s) as [[a|e] s1]. Qed.

Lemma backfill_of_one_run tok s :
  (print (Backfilling 1);;
   for_each (range_down 1) (backfill_day w tok);;
   print BackfillComplete) s =
  match minus_days (clock w (clock_reads s)) 1 with
  | Ok y =>
      (((fetch_on w tok y ≫= λ data,
         print (SendingFor (Ymd y));; forward_to_blockbax w data);;
        mret ());;
       print BackfillComplete)
        (State (events s ++ [Print (Backfilling 1); Print (FetchingFor (Ymd y))])
               (S (clock_reads s)))
  | Raise e =>
      (Raise e, State (events s ++ [Print (Backfilling 1)]) (S (clock_reads s)))
  end.
Proof.
  change (range_down 1) with [1]. cbn [for_each]. unfold backfill_day.
  rewrite bind_run. unfold print at 1, printable at 1.
  rewrite bind_run, bind_run, bind_run.
  unfold utcnow at 1. cbn [events clock_reads].
  rewrite bind_run. unfold lift at 1.
  destruct (minus_days _ 1) as [y|e]; [|done].
  rewrite bind_run. unfold print at 1, printable at 1. cbn [events clock_reads].
  rewrite <-app_assoc. cbn [app]. unfold fetch_on, fetch_power_usage.
  rewrite !bind_run. done.
Qed.

Lemma default_run tok s :
  (print FetchingYesterday;;
   data ← fetch_power_usage w tok None;
   print SendingData;;
   forward_to_blockbax w data;;
   print Done) s =
  match minus_days (clock w (clock_reads s)) 1 with
  | Ok y =>
      (fetch_on w tok y ≫= λ data,
       print SendingData;; forward_to_blockbax w data;; print Done)
        (State (events s ++ [Print FetchingYesterday]) (S (clock_reads s)))
  | Raise e =>
      (Raise e, State (events s ++ [Print FetchingYesterday]) (S (clock_reads s)))
  end.
Proof.
  rewrite bind_run. unfold print at 1, printable at 1.
  rewrite bind_run, fetch_default_run.
  cbn [events clock_reads]. unfold fetch_on.
  destruct (minus_days _ 1) as [y|e]; [|done]. by rewrite bind_run.
Qed.

Lemma agree_one_day tok :
  agree
    (print (Backfilling 1);;
     for_each (range_down 1) (backfill_day w tok);;
     print BackfillComplete)
    (print FetchingYesterday;;
     data ← fetch_power_usage w tok None;
     print SendingData;;
     forward_to_blockbax w data;;
     print Done).
Proof.
  intros s1 s2 [Hr Hc]. rewrite backfill_of_one_run, default_run, Hc.
  destruct (minus_days (clock w (clock_reads s2)) 1) as [y|e].
  2:{ cbn [fst snd]. split; [done|]. split; by tidy. }
  eapply agree_ext_l; [intros s; apply bind_assoc_run| |].
  2:{ split; cbn [events clock_reads]; [|done].
      rewrite !requests_of_app, Hr. done. }
  eapply agree_ext_l; [intros s; apply bind_assoc_run|].
  apply agree_bind.
  { unfold fetch_on. apply agree_bind;
      [apply agree_meter_enumerator|intros ids; apply agree_reading_fetcher]. }
  intros data.
  eapply agree_ext_l; [intros s; apply bind_assoc_run|].
  apply (agree_skip_l (SendingFor (Ymd y))
           (forward_to_blockbax w data;; mret ();; print BackfillComplete));
    [done|].
  apply agree_skip_r; [done|].
  apply agree_bind; [apply agree_forward_to_blockbax|intros []].
  eapply agree_ext_l; [intros s; reflexivity|]. by apply agree_print.
Qed.

Lemma agree_main_body_one_zero : agree (main_body w 1) (main_body w 0).
Proof.
  unfold main_body. change (0 <? 1) with true. change (0 <? 0) with false.
  cbn iota.
  apply agree_bind; [apply agree_check_run_yesterday|intros []];
    [by apply agree_print|].
  apply agree_bind; [by apply agree_print|intros ?].
  apply agree_bind; [by apply agree_print|intros ?].
  apply agree_bind; [apply agree_get_access_token|intros tok].
  apply agree_one_day.
Qed.

End Agreement.

(** X16.  A backfill of one day is the default run: from the same state,
    [main] with day-count 1 and with day-count 0 make the same requests in
    the same order and read the clock as often, and their bodies end the
    same way (the same exception, if any); only the lines printed
    differ. *)
Theorem backfill_of_one_day_is_the_default (w : World) s :
  (main_body w 1 s).1 = (main_body w 0 s).1 ∧
  requests_of (events (main w 1 s).2) = requests_of (events (main w 0 s).2) ∧
  clock_reads (main w 1 s).2 = clock_reads (main w 0 s).2.
Proof.
  assert (Hs : alike s s) by by split.
  split; [apply (agree_main_body_one_zero w s s Hs)|].
  assert (Hmain : agree (main w 1) (main w 0)).
  { unfold main. apply agree_try; [apply agree_main_body_one_zero|].
    intros e. by apply agree_print. }
  apply (Hmain s s Hs).
Qed.

(** ** When an error leaves [main] *)

Lemma nfe_ok {A} (a : A) : no_format_error (Ok a).
Proof. by intros v. Qed.









Section Blame.
Context (w : World).
















End Blame.


(** ** More scenarios, run *)


Lemma missing_token_is_an_error_witness :
  get_access_token tokenless initial =
    (Raise NoTokenFound,
     State (events initial ++ [Call PostToken; Print (FailedToAuthenticate 200)])
           (clock_reads initial)).
Proof.
  apply (missing_token_is_an_error tokenless initial
           (Response 200 (Some (JDict [("error", JStr "denied")])))
           [("error", JStr "denied")]).
  - reflexivity.
  - unfold http_error. simpl. lia.
  - reflexivity.
  - reflexivity.
Defined.

Lemma no_provider_call_without_token_witness :
  main tokenless 0 initial =
    (Ok (),
     State [Call GetSubjects; Call (PostMeasurements [] 739923);
            Print NoExistingMeasurements; Print Authenticating;
            Call PostToken; Print (FailedToAuthenticate 200);
            Print (ErrorOccurred NoTokenFound)] 1).
Proof.
  destruct (no_provider_call_without_token tokenless 0 initial
              (State [Call GetSubjects; Call (PostMeasurements [] 739923)] 1)
              NoTokenFound
              (State [Call GetSubjects; Call (PostMeasurements [] 739923);
                      Print NoExistingMeasurements; Print Authenticating;
                      Call PostToken; Print (FailedToAuthenticate 200)] 1))
    as [H _].
  - vm_compute. reflexivity.
  - vm_compute. reflexivity.
  - exact H.
Defined.

Lemma check_is_truth_of_result_witness :
  check_run_yesterday tokenless initial =
    (Ok false, State [Call GetSubjects; Call (PostMeasurements [] 739923)] 1).
Proof.
  apply (check_is_truth_of_result tokenless initial
           (Response 200 (Some (JDict [("result", JList [])])))
           [("result", JList [])] [] 739923
           (Response 200 (Some (JDict []))) []).
  - reflexivity.
  - unfold http_error. simpl. lia.
  - reflexivity.
  - reflexivity.
  - constructor.
  - reflexivity.
  - reflexivity.
  - unfold http_error. simpl. lia.
  - reflexivity.
Defined.

Lemma odd_subject_raises_type_error_witness :
  check_run_yesterday odd_subjects initial =
    (Raise TypeError, State [Call GetSubjects] 0).
Proof.
  apply (odd_subject_raises_type_error odd_subjects initial
           (Response 200 (Some (JDict [("result",
              JList [JDict [("id", JStr "s1")]; JInt 7])])))
           [("result", JList [JDict [("id", JStr "s1")]; JInt 7])]).
  - reflexivity.
  - unfold http_error. simpl. lia.
  - reflexivity.
  - exists (JList [JDict [("id", JStr "s1")]; JInt 7]). split; [reflexivity|].
    right. exists [JDict [("id", JStr "s1")]; JInt 7], (JInt 7).
    split; [reflexivity|]. split; [|exact I]. constructor 2. constructor 1.
Defined.

Lemma duplicate_free_list_unchanged_witness :
  meter_enumerator two_meters T1 initial =
    (Ok [JStr "B"; JStr "A"], State [Call (GetMyMeters T1)] 0).
Proof.
  apply (duplicate_free_list_unchanged two_meters T1 initial
           (Response 200 (Some (JDict [("meters", JList [meter "B"; meter "A"])])))
           [("meters", JList [meter "B"; meter "A"])]
           [meter "B"; meter "A"]).
  - reflexivity.
  - unfold http_error. simpl. lia.
  - reflexivity.
  - reflexivity.
  - repeat constructor; by eexists.
  - change (NoDup [Some (KStr "B"); Some (KStr "A")]).
    apply NoDup_cons. split; [|apply NoDup_singleton].
    intros H%list_elem_of_singleton. discriminate H.
Defined.

Lemma unhashable_id_raises_witness :
  meter_enumerator unhashable_meter T1 initial =
    (Raise TypeError,
     State [Call (GetMyMeters T1); Print (FailedToParseMeters 200)] 0).
Proof.
  apply (unhashable_id_raises unhashable_meter T1 initial
           (Response 200 (Some (JDict [("meters",
              JList [meter "A"; JDict [("id", JList [JInt 1])]])])))
           [("meters", JList [meter "A"; JDict [("id", JList [JInt 1])]])]
           [meter "A"; JDict [("id", JList [JInt 1])]]
           (JList [JInt 1])).
  - reflexivity.
  - unfold http_error. simpl. lia.
  - reflexivity.
  - reflexivity.
  - constructor 2. constructor 1.
  - left. by eexists.
Defined.

Lemma plain_ids_merged_only_if_equal_witness :
  NoDup [JStr "A"; JStr "B"] ∧
  ∀ x, x ∈ [JStr "A"; JStr "B"] ↔ x ∈ [JStr "A"; JStr "A"; JStr "B"].
Proof.
  apply (plain_ids_merged_only_if_equal healthy T1 initial
           [JStr "A"; JStr "B"] (State [Call (GetMyMeters T1)] 0)
           (Response 200 (Some (JDict [("meters",
              JList [meter "A"; meter "A"; meter "B"])])))
           [("meters", JList [meter "A"; meter "A"; meter "B"])]
           [meter "A"; meter "A"; meter "B"]).
  - vm_compute. reflexivity.
  - reflexivity.
  - reflexivity.
  - reflexivity.
  - repeat constructor.
Defined.

Lemma fetched_payload_is_the_answers_witness :
  ∃ ids,
    bodies_of healthy [GetMyMeters T1] (λ id, GetDataRaw T1 id (Ymd 739923)) ids
      [JDict [("m", JStr "A")]; JDict [("m", JStr "B")]].
Proof.
  destruct (fetched_payload_is_the_answers healthy T1 None initial
              [JDict [("m", JStr "A")]; JDict [("m", JStr "B")]]
              (State [Call (GetMyMeters T1);
                      Call (GetDataRaw T1 (JStr "A") (Ymd 739923));
                      Call (GetDataRaw T1 (JStr "B") (Ymd 739923))] 1))
    as (ids & _ & Hbodies).
  - vm_compute. reflexivity.
  - exists ids. exact Hbodies.
Defined.

Example midnight_days : backfill_days_read midnight 1 2 = [739922; 739924].
Proof. reflexivity. Qed.


(** The readings of meter B are refused: the failure line is printed and
    the [HTTPError] goes up. *)
Example failed_fetch_prints_its_line :
  reading_fetcher flaky T1 (Ymd 739923) [JStr "A"; JStr "B"] [] initial =
    (Raise (HTTPError 500),
     State [Call (GetDataRaw T1 (JStr "A") (Ymd 739923));
            Call (GetDataRaw T1 (JStr "B") (Ymd 739923));
            Print (FailedToFetch (JStr "B") 500)] 0).
Proof. vm_compute. reflexivity. Qed.


(** In a run of [main] that error is caught like any other: its text can
    be encoded, the handler prints it and [main] returns. *)
Example unprintable_meter_line_is_caught :
  main unnameable 0 initial =
    (Ok (),
     State [Call GetSubjects; Call (PostMeasurements [JStr "s1"] 739923);
            Print NoExistingMeasurements; Print Authenticating;
            Call PostToken; Print FetchingYesterday;
            Call (GetMyMeters T1);
            Call (GetDataRaw T1 (JStr "A") (Ymd 739923));
            Call (GetDataRaw T1 (JStr lone_surrogate) (Ymd 739923));
            Print (ErrorOccurred UnicodeEncodeError)] 2).
Proof. vm_compute. reflexivity. Qed.

Lemma no_meters_forwards_empty_list_witness :
  requests_of (events (main meterless 0 initial).2) =
    requests_of (events authenticated) ++ [GetMyMeters T1; PostToBlockbax []].
Proof.
  apply (no_meters_forwards_empty_list meterless 0 initial checked T1 authenticated
           739923 (Response 200 (Some (JDict [("meters", JList [])])))
           [("meters", JList [])] []).
  - lia.
  - vm_compute. reflexivity.
  - vm_compute. reflexivity.
  - reflexivity.
  - reflexivity.
  - unfold http_error. simpl. lia.
  - reflexivity.
  - reflexivity.
  - reflexivity.
Defined.

Lemma backfill_before_calendar_aborts_witness :
  main healthy 1000000 initial =
    (Ok (),
     State (events authenticated ++
              [Print (Backfilling 1000000); Print (ErrorOccurred OverflowError)])
           (S (clock_reads authenticated))).
Proof.
  apply (backfill_before_calendar_aborts healthy 1000000 739924 initial checked T1
           authenticated).
  - lia.
  - reflexivity.
  - lia.
  - vm_compute. reflexivity.
  - vm_compute. reflexivity.
Defined.

Lemma no_request_after_unusable_answer_witness :
  requests_of [Print (FailedToFetch (JStr "B") 500);
               Print (ErrorOccurred (HTTPError 500))] = [].
Proof.
  apply (no_request_after_unusable_answer flaky 0 initial
           [Call GetSubjects; Call (PostMeasurements [JStr "s1"] 739923);
            Print NoExistingMeasurements; Print Authenticating;
            Call PostToken; Print FetchingYesterday;
            Call (GetMyMeters T1);
            Call (GetDataRaw T1 (JStr "A") (Ymd 739923))]
           (GetDataRaw T1 (JStr "B") (Ymd 739923))).
  - vm_compute. reflexivity.
  - left. unfold http_error. simpl. lia.
Defined.

Lemma backfill_keeps_earlier_days_witness :
  for_each ([2] ++ 1 :: []) (backfill_day flaky_yesterday T1) initial =
    (Raise (HTTPError 503),
     (backfill_day flaky_yesterday T1 1
        (for_each [2] (backfill_day flaky_yesterday T1) initial).2).2).
Proof.
  destruct (backfill_keeps_earlier_days flaky_yesterday 739924 T1 [2] [] 1 initial
              (for_each [2] (backfill_day flaky_yesterday T1) initial).2
              (HTTPError 503)
              (backfill_day flaky_yesterday T1 1
                 (for_each [2] (backfill_day flaky_yesterday T1) initial).2).2)
    as [H _].
  - reflexivity.
  - vm_compute. reflexivity.
  - vm_compute. reflexivity.
  - exact H.
Defined.
